(** * Rating, pairing and voting logic of the manga voting app

    A shallow embedding of the ELO helpers, [handleVote], [handleDelete]
    and [VoteView]'s [getNextMatch] of the App component (the source ships
    it right after the Firebase configuration, in [src/firebaseConfig.js]).

    JavaScript numbers are embedded as exact reals: [Math.pow(10, x)] is
    [Rpower 10 x] and [Math.floor] is [Zfloor].  The rating stored in a
    document (its [elo] field) is an integer: it starts at 1500 and is only
    ever replaced by a result of [Math.floor]; it enters the arithmetic
    through [IZR].  Module [Double] adds the rounding of every operation
    to the nearest double, and module [Binary64] doubles that compute. *)

From Stdlib Require Import Reals Lra ZArith Lia Zfloor Sorted Permutation.
From Stdlib Require PrimFloat SpecFloat FloatOps.
From stdpp Require Import gmap strings list pretty.

(** ** Part I: definitions *)

(** *** ELO rating computation *)

Module Elo.
Local Open Scope R_scope.

(** [const K_FACTOR = 32;] *)
Definition K_FACTOR : R := 32.

(** [Math.pow(b, x)] for a positive base, and [Math.floor(x)]. *)
Definition Math_pow (b x : R) : R := Rpower b x.
Definition Math_floor (x : R) : Z := Zfloor x.

(** [const calculateExpected = (ratingA, ratingB) =>
      1 / (1 + Math.pow(10, (ratingB - ratingA) / 400));] *)
Definition calculateExpected (ratingA ratingB : R) : R :=
  1 / (1 + Math_pow 10 ((ratingB - ratingA) / 400)).

(** [const updateElo = (oldRating, expected, score) =>
      Math.floor(oldRating + K_FACTOR * (score - expected));] *)
Definition updateElo (oldRating expected score : R) : Z :=
  Math_floor (oldRating + K_FACTOR * (score - expected)).

End Elo.

(** *** The external store: documents, collection, blobs, exceptions *)

Module Firebase.

(** The fields [handleUpload] writes with [addDoc]. *)
Record MangaData : Type := mkMangaData {
  title : string;
  author : string;
  password : string;
  imageUrl : string;
  storagePath : string;
  elo : Z;
  createdAt : Z;
  uploaderUid : string
}.

(** An element of [mangaList]: [{ id: doc.id, ...doc.data() }]. *)
Record Manga : Type := mkManga {
  id : string;
  data : MangaData
}.

(** The manga collection, keyed by document id, and the bucket of image
    paths. *)
Abbreviation Collection := (gmap string MangaData).
Abbreviation Bucket := (gset string).

Record World : Type := mkWorld {
  firestore : Collection;
  bucket : Bucket
}.

(** A JavaScript computation that returns or throws an [Error] carrying
    [error.message]. *)
Inductive Try (A : Type) : Type :=
| Return (a : A)
| Throw (message : string).
Arguments Return {A} a.
Arguments Throw {A} message.

(** [transaction.update(ref, { elo: v })]: only the [elo] field changes. *)
Definition set_elo (v : Z) (d : MangaData) : MangaData :=
  mkMangaData (title d) (author d) (password d) (imageUrl d)
              (storagePath d) v (createdAt d) (uploaderUid d).

(** A write buffered by a transaction: the document id and its new [elo]. *)
Definition Update : Type := string * Z.

Definition apply_update (db : Collection) (u : Update) : Collection :=
  alter (set_elo (snd u)) (fst u) db.

Definition commit (writes : list Update) (db : Collection) : Collection :=
  foldl apply_update db writes.

(** [runTransaction(db, updateFunction)].  [updateFunction] reads from the
    committed collection and returns the writes it buffered, or throws; the
    writes are applied together or not at all.  [transport] carries the
    error of a transaction the service itself fails. *)
Definition runTransaction (transport : option string) (db : Collection)
    (updateFunction : Collection -> Try (list Update)) : Collection * Try unit :=
  match transport with
  | Some err => (db, Throw err)
  | None =>
      match updateFunction db with
      | Return writes => (commit writes db, Return tt)
      | Throw err => (db, Throw err)
      end
  end.

(** The three calls of [handleDelete] to the service; [Some err] makes the
    call reject with that message. *)
Record Faults : Type := mkFaults {
  getDoc_fault : option string;
  deleteObject_fault : option string;
  deleteDoc_fault : option string
}.

Definition no_faults : Faults := mkFaults None None None.

Definition getDoc (f : Faults) (w : World) (ref : string) : Try (option MangaData) :=
  match getDoc_fault f with
  | Some err => Throw err
  | None => Return (firestore w !! ref)
  end.

Definition deleteObject (f : Faults) (w : World) (path : string) : Try World :=
  match deleteObject_fault f with
  | Some err => Throw err
  | None => Return (mkWorld (firestore w) (bucket w ∖ {[ path ]}))
  end.

Definition deleteDoc (f : Faults) (w : World) (ref : string) : Try World :=
  match deleteDoc_fault f with
  | Some err => Throw err
  | None => Return (mkWorld (delete ref (firestore w)) (bucket w))
  end.

End Firebase.

(** *** The App component: state, [handleVote], [handleDelete] *)

Module App.
Import Elo Firebase.

(** [setMessage({ type, text })] *)
Record Message : Type := mkMessage {
  type : string;
  text : string
}.

(** The pieces of React state the handlers touch.  [mangaList] is the
    snapshot last pushed by [onSnapshot]. *)
Record State : Type := mkState {
  mangaList : list Manga;
  isLoading : bool;
  message : option Message
}.

Definition setIsLoading (b : bool) (s : State) : State :=
  mkState (mangaList s) b (message s).
Definition setMessage (m : Message) (s : State) : State :=
  mkState (mangaList s) (isLoading s) (Some m).

(** The function passed to [runTransaction] by [handleVote]. *)
Definition voteTransaction (winnerId loserId : string) (db : Collection)
  : Try (list Update) :=
  match db !! winnerId, db !! loserId with
  | Some winner, Some loser =>
      let expectedWinner := calculateExpected (IZR (elo winner)) (IZR (elo loser)) in
      let expectedLoser := calculateExpected (IZR (elo loser)) (IZR (elo winner)) in
      let newWinnerElo := updateElo (IZR (elo winner)) expectedWinner 1 in
      let newLoserElo := updateElo (IZR (elo loser)) expectedLoser 0 in
      Return [(winnerId, newWinnerElo); (loserId, newLoserElo)]
  | _, _ => Throw "作品データが見つかりません。"
  end.

(** [const handleVote = async (winnerId, loserId) => { ... }] *)
Definition handleVote (transport : option string) (s : State) (db : Collection)
    (winnerId loserId : string) : State * Collection :=
  let s := setIsLoading true s in
  let '(db', r) := runTransaction transport db (voteTransaction winnerId loserId) in
  let s :=
    match r with
    | Return _ => s
    | Throw err => setMessage (mkMessage "error" ("投票処理に失敗しました: " +:+ err)) s
    end in
  (setIsLoading false s, db').

(** [const handleDelete = async (id, password) => { ... }]; the result is
    the state, the world and the returned boolean. *)
Definition handleDelete (f : Faults) (s : State) (w : World)
    (id password : string) : State * World * bool :=
  let s := setIsLoading true s in
  let failed (w' : World) (err : string) :=
    (setIsLoading false
       (setMessage (mkMessage "error" ("削除に失敗しました: " +:+ err)) s), w', false) in
  match getDoc f w id with
  | Throw err => failed w err
  | Return None =>
      (setIsLoading false
         (setMessage (mkMessage "error" "削除対象の作品が見つかりません。") s), w, false)
  | Return (Some mangaData) =>
      if decide (Firebase.password mangaData = password) then
        match deleteObject f w (storagePath mangaData) with
        | Throw err => failed w err
        | Return w1 =>
            match deleteDoc f w1 id with
            | Throw err => failed w1 err
            | Return w2 =>
                (setIsLoading false
                   (setMessage (mkMessage "success" "削除しました。") s), w2, true)
            end
        end
      else
        (setIsLoading false
           (setMessage (mkMessage "error" "パスワードが違います。") s), w, false)
  end.

End App.

(** *** The vote view: [getNextMatch] and what is rendered *)

Module VoteView.
Import Elo Firebase.

(** [Math.random()]: the [k]-th call of a run returns [rnd k]. *)
Definition Random : Type := nat -> R.


(** [Math.floor(Math.random() * n)], consuming draw [k]. *)
Definition randomIndex (rnd : Random) (k : nat) (n : Z) : Z :=
  Math_floor (rnd k * IZR n).

(** [array[i]] for an integer [i]: [undefined] out of range. *)
Definition at_index {A : Type} (l : list A) (i : Z) : option A :=
  if decide (0 <= i)%Z then l !! Z.to_nat i else None.

(** The [match] state: [null], or [{ a: manga, b: manga }] whose fields
    may be [undefined]. *)
Record Match : Type := mkMatch {
  a : option Manga;
  b : option Manga
}.

(** [Array.prototype.sort(compareFn)] is stable: an element moves past
    another only when [compareFn] is positive. *)
Fixpoint insert_by {A : Type} (compareFn : A -> A -> Z) (x : A) (l : list A)
  : list A :=
  match l with
  | [] => [x]
  | y :: l' =>
      if decide (compareFn x y <= 0)%Z then x :: y :: l'
      else y :: insert_by compareFn x l'
  end.

Definition Array_sort {A : Type} (compareFn : A -> A -> Z) (l : list A) : list A :=
  foldr (insert_by compareFn) [] l.

(** [(a, b) => a.elo - b.elo] *)
Definition byElo (a b : Manga) : Z := (elo (data a) - elo (data b))%Z.

(** Ascending by rating. *)
Definition elo_le (x y : Manga) : Prop := (elo (data x) <= elo (data y))%Z.

(** [while (indexA === indexB) { indexB = Math.floor(Math.random() * n); }]
    where [k] is the next draw; [None] when [fuel] iterations do not end
    the loop. *)
Fixpoint redraw (fuel : nat) (rnd : Random) (k : nat) (n : Z) (indexA indexB : Z)
  : option Z :=
  if decide (indexA = indexB) then
    match fuel with
    | O => None
    | S fuel' => redraw fuel' rnd (S k) n indexA (randomIndex rnd k n)
    end
  else Some indexB.

(** [getNextMatch]: [Some m] is the value given to [setMatch]; [None]
    means the loop is still running after [fuel] iterations. *)
Definition getNextMatch (fuel : nat) (rnd : Random) (mangaList : list Manga)
  : option (option Match) :=
  if decide (length mangaList < 2)%nat then Some None
  else
    let sortedList := Array_sort byElo mangaList in
    if Rlt_dec (rnd 0%nat) (1 / 2) then
      let n := Z.of_nat (length mangaList) in
      let indexA := randomIndex rnd 1 n in
      let indexB := randomIndex rnd 2 n in
      match redraw fuel rnd 3 n indexA indexB with
      | None => None
      | Some indexB =>
          Some (Some (mkMatch (at_index mangaList indexA) (at_index mangaList indexB)))
      end
    else
      let indexA := randomIndex rnd 1 (Z.of_nat (length sortedList) - 1) in
      let indexB := (indexA + 1)%Z in
      Some (Some (mkMatch (at_index sortedList indexA) (at_index sortedList indexB))).

(** What the view renders: a notice, or the two candidates. *)
Inductive View : Type :=
| Notice (text : string)
| Versus (a b : Manga).

Definition render (mangaList : list Manga) (match_ : option Match) : View :=
  match match_ with
  | Some (mkMatch (Some a) (Some b)) => Versus a b
  | _ =>
      if decide (length mangaList < 2)%nat
      then Notice "作品が2つ以上登録されると投票が開始されます。"
      else Notice "対戦を準備中..."
  end.

End VoteView.

(** *** Sample documents, collections and draws *)

Module Samples.
Import Firebase App VoteView.

Definition mangaA : MangaData :=
  mkMangaData "Alpha" "ann" "1234" "https://img/a.png"
              "manga_images/default-app-id/1_a.png" 1500 1 "u1".
Definition mangaB : MangaData :=
  mkMangaData "Beta" "bob" "4321" "https://img/b.png"
              "manga_images/default-app-id/2_b.png" 1500 2 "u2".
Definition mangaC : MangaData :=
  mkMangaData "Gamma" "cy" "0000" "https://img/c.png"
              "manga_images/default-app-id/3_c.png" 1380 3 "u3".

Definition collectionAB : Collection :=
  <["idA" := mangaA]> (<["idB" := mangaB]> ∅).

Definition worldAB : World :=
  mkWorld collectionAB {[ storagePath mangaA; storagePath mangaB ]}.

(** A client whose cached list is out of date: it still shows [idA] at
    1400 and the deleted [idC]. *)
Definition staleState : State :=
  mkState [mkManga "idC" mangaC; mkManga "idA" (set_elo 1400 mangaA)] false None.

Definition listABC : list Manga :=
  [mkManga "idA" mangaA; mkManga "idB" mangaB; mkManga "idC" mangaC].

(** Draws that take the uniform branch and collide once. *)
Definition collidingDraws : Random :=
  fun k =>
    match k with
    | 0%nat => 1 / 4
    | 1%nat => 1 / 10
    | 2%nat => 2 / 10
    | _ => 6 / 10
    end%R.

(** Draws that take the neighbour branch. *)
Definition neighbourDraws : Random :=
  fun k => match k with 0%nat => 3 / 4 | _ => 6 / 10 end%R.

End Samples.

(** *** [handleUpload] and the snapshot listener *)

Module Upload.
Import Firebase App.

(** The [File] picked in the form: [file.name] and [file.type]. *)
Record File : Type := mkFile {
  name : string;
  type : string
}.

(** The argument of [onUpload]: [{ title, author, password, imageFile }]. *)
Record FormData : Type := mkFormData {
  title : string;
  author : string;
  password : string;
  imageFile : File
}.

(** What [handleUpload] takes from its surroundings: [appId], the [userId]
    state, [Date.now()], the URL the bucket serves for a path, the id
    [addDoc] assigns and the value of [serverTimestamp()]. *)
Record Env : Type := mkEnv {
  appId : string;
  userId : option string;
  now : N;
  downloadURL : string -> string;
  newId : string;
  serverTime : Z
}.

(** The three calls of [handleUpload] to the service. *)
Record Faults : Type := mkFaults {
  uploadBytes_fault : option string;
  getDownloadURL_fault : option string;
  addDoc_fault : option string
}.

Definition no_faults : Faults := mkFaults None None None.

(** [!userId]: [null] and the empty string are falsy. *)
Definition signedIn (userId : option string) : option string :=
  match userId with
  | Some uid => if decide (uid = "") then None else Some uid
  | None => None
  end.

(** [`manga_images/${appId}/${Date.now()}_${formData.imageFile.name}`] *)
Definition storagePathOf (e : Env) (formData : FormData) : string :=
  "manga_images/" +:+ appId e +:+ "/" +:+ pretty (now e) +:+ "_"
    +:+ name (imageFile formData).

Definition uploadBytes (f : Faults) (w : World) (path : string) : Try World :=
  match uploadBytes_fault f with
  | Some err => Throw err
  | None => Return (mkWorld (firestore w) ({[ path ]} ∪ bucket w))
  end.

Definition getDownloadURL (f : Faults) (e : Env) (path : string) : Try string :=
  match getDownloadURL_fault f with
  | Some err => Throw err
  | None => Return (downloadURL e path)
  end.

Definition addDoc (f : Faults) (e : Env) (w : World) (d : MangaData) : Try World :=
  match addDoc_fault f with
  | Some err => Throw err
  | None => Return (mkWorld (<[newId e := d]> (firestore w)) (bucket w))
  end.

(** The document [handleUpload] stores. *)
Definition newDocument (e : Env) (uid : string) (formData : FormData)
    (imageUrl : string) : MangaData :=
  mkMangaData (title formData) (author formData) (password formData)
              imageUrl (storagePathOf e formData) 1500 (serverTime e) uid.

(** [const handleUpload = async (formData) => { ... }] *)
Definition handleUpload (e : Env) (f : Faults) (s : State) (w : World)
    (formData : FormData) : State * World :=
  let s := setIsLoading true s in
  match signedIn (userId e) with
  | None =>
      (setIsLoading false
         (setMessage (mkMessage "error" "認証エラー。再読み込みしてください。") s), w)
  | Some uid =>
      let failed (w' : World) (err : string) :=
        (setIsLoading false
           (setMessage (mkMessage "error" ("アップロードに失敗しました: " +:+ err)) s),
         w') in
      let storagePath := storagePathOf e formData in
      match uploadBytes f w storagePath with
      | Throw err => failed w err
      | Return w1 =>
          match getDownloadURL f e storagePath with
          | Throw err => failed w1 err
          | Return imageUrl =>
              match addDoc f e w1 (newDocument e uid formData imageUrl) with
              | Throw err => failed w1 err
              | Return w2 =>
                  (setIsLoading false
                     (setMessage (mkMessage "success" "アップロードが完了しました！") s),
                   w2)
              end
          end
      end
  end.

(** The [onSnapshot] listener: [snapshot.docs.map((doc) => ({ id: doc.id,
    ...doc.data() }))], then [setMangaList] and [setIsLoading(false)]. *)
Definition onSnapshot (docs : list (string * MangaData)) (s : State) : State :=
  mkState (map (fun doc => mkManga (fst doc) (snd doc)) docs) false (message s).

End Upload.

(** *** The upload form *)

Module UploadForm.

Record FormState : Type := mkFormState {
  title : string;
  author : string;
  password : string;
  imageFile : option Upload.File;
  preview : option string;
  error : string
}.

(** [useState("")] and [useState(null)] *)
Definition initial : FormState := mkFormState "" "" "" None None "".

(** [\d] *)
Definition isDigit (c : Ascii.ascii) : bool :=
  (48 <=? Ascii.nat_of_ascii c)%nat && (Ascii.nat_of_ascii c <=? 57)%nat.

(** [/^\d{0,4}$/.test(val)] *)
Definition digits_0_4 (val : string) : bool :=
  forallb isDigit (String.list_ascii_of_string val) && (String.length val <=? 4)%nat.

(** [handleImageChange], on [e.target.files[0]]; [createObjectURL] is
    [URL.createObjectURL]. *)
Definition handleImageChange (createObjectURL : Upload.File -> string)
    (file : option Upload.File) (st : FormState) : FormState :=
  match file with
  | Some f =>
      if String.prefix "image/" (Upload.type f) then
        mkFormState (title st) (author st) (password st)
                    (Some f) (Some (createObjectURL f)) ""
      else
        mkFormState (title st) (author st) (password st) None None
                    "画像ファイルを選択してください。"
  | None =>
      mkFormState (title st) (author st) (password st) None None
                  "画像ファイルを選択してください。"
  end.

(** [handlePasswordChange], on [e.target.value]. *)
Definition handlePasswordChange (val : string) (st : FormState) : FormState :=
  if digits_0_4 val then
    mkFormState (title st) (author st) val (imageFile st) (preview st)
                (if decide (String.length val = 4%nat) then "" else error st)
  else st.

(** [onChange={(e) => setTitle(e.target.value)}] and the same for the
    author. *)
Definition setTitle (val : string) (st : FormState) : FormState :=
  mkFormState val (author st) (password st) (imageFile st) (preview st) (error st).
Definition setAuthor (val : string) (st : FormState) : FormState :=
  mkFormState (title st) val (password st) (imageFile st) (preview st) (error st).

Definition setError (msg : string) (st : FormState) : FormState :=
  mkFormState (title st) (author st) (password st) (imageFile st) (preview st) msg.

(** [handleSubmit]; [onUpload] acts on the surroundings [W]. *)
Definition handleSubmit {W : Type} (onUpload : Upload.FormData -> W -> W)
    (st : FormState) (w : W) : FormState * W :=
  let st := setError "" st in
  match imageFile st with
  | Some file =>
      if decide (title st = "" \/ author st = "" \/ password st = "") then
        (setError "すべての項目を入力してください。" st, w)
      else if decide (String.length (password st) <> 4%nat) then
        (setError "パスワードは4桁の数字で入力してください。" st, w)
      else
        (initial,
         onUpload (Upload.mkFormData (title st) (author st) (password st) file) w)
  | None => (setError "すべての項目を入力してください。" st, w)
  end.

(** What a user does to the form between two submissions. *)
Inductive Event : Type :=
| TypeTitle (val : string)
| TypeAuthor (val : string)
| TypePassword (val : string)
| PickFile (file : option Upload.File).

Definition step (createObjectURL : Upload.File -> string) (st : FormState)
    (ev : Event) : FormState :=
  match ev with
  | TypeTitle val => setTitle val st
  | TypeAuthor val => setAuthor val st
  | TypePassword val => handlePasswordChange val st
  | PickFile file => handleImageChange createObjectURL file st
  end.

End UploadForm.

(** *** The delete dialog *)

Module DeleteModal.

Record ModalState : Type := mkModalState {
  password : string;
  isDeleting : bool;
  error : string
}.

Definition initial : ModalState := mkModalState "" false "".

(** [handlePasswordChange], on [e.target.value]. *)
Definition handlePasswordChange (val : string) (st : ModalState) : ModalState :=
  if UploadForm.digits_0_4 val then mkModalState val (isDeleting st) "" else st.

(** [handleDeleteClick]; [onDelete] acts on the surroundings [W] and
    returns its boolean; the last component tells whether [onClose] was
    called. *)
Definition handleDeleteClick {W : Type} (onDelete : string -> string -> W -> W * bool)
    (mangaId : string) (st : ModalState) (w : W) : ModalState * W * bool :=
  if decide (String.length (password st) <> 4%nat) then
    (mkModalState (password st) (isDeleting st) "4桁の数字を入力してください。", w, false)
  else
    let '(w', success) := onDelete mangaId (password st) w in
    if success then (mkModalState (password st) false "", w', true)
    else
      (mkModalState (password st) false "パスワードが違うか、削除に失敗しました。",
       w', false).

End DeleteModal.

(** *** The ranking *)

Module RankingView.
Import Firebase VoteView.

(** [(a, b) => b.elo - a.elo] *)
Definition byEloDesc (a b : Manga) : Z := (elo (data b) - elo (data a))%Z.

(** Descending by rating. *)
Definition elo_ge (x y : Manga) : Prop := (elo (data y) <= elo (data x))%Z.

(** [[...mangaList].sort((a, b) => b.elo - a.elo)] *)
Definition sortedList (mangaList : list Manga) : list Manga :=
  Array_sort byEloDesc mangaList.

Definition getRankColor (rank : nat) : string :=
  match rank with
  | 0 => "bg-yellow-400 text-yellow-900"
  | 1 => "bg-gray-300 text-gray-800"
  | 2 => "bg-yellow-600 text-white"
  | _ => "bg-gray-100 text-gray-700"
  end%nat.

Definition getRankEmoji (rank : nat) : string :=
  match rank with
  | 0 => "🥇"
  | 1 => "🥈"
  | 2 => "🥉"
  | _ => pretty (rank + 1)%nat
  end%nat.

End RankingView.

(** *** Choosing a candidate in the vote view *)

Module VoteFlow.
Import Firebase VoteView.



(** [d'] is [d] with, at most, another rating. *)
Definition same_but_elo (d d' : MangaData) : Prop := d' = set_elo (elo d') d.


(** A list that shows the collection as it is. *)
Definition current_snapshot (db : Collection) (mangaList : list Manga) : Prop :=
  NoDup (id <$> mangaList)
  /\ forall x : Manga, x ∈ mangaList -> db !! id x = Some (data x).

End VoteFlow.

(** *** What the forms guarantee *)

Module FormSpec.

(** The form holds at most four digits as password and, as file, only an
    image. *)
Definition well_formed (st : UploadForm.FormState) : Prop :=
  UploadForm.digits_0_4 (UploadForm.password st) = true
  /\ forall f : Upload.File,
       UploadForm.imageFile st = Some f ->
       String.prefix "image/" (Upload.type f) = true.

(** Data [handleUpload] is meant to receive: names that are not empty, a
    password of exactly four digits and an image file. *)
Definition valid_upload (fd : Upload.FormData) : Prop :=
  Upload.title fd <> ""
  /\ Upload.author fd <> ""
  /\ String.length (Upload.password fd) = 4%nat
  /\ forallb UploadForm.isDigit (String.list_ascii_of_string (Upload.password fd)) = true
  /\ String.prefix "image/" (Upload.type (Upload.imageFile fd)) = true.

(** [onUpload] as a log of the data it was called with. *)
Definition logUpload (fd : Upload.FormData) (log : list Upload.FormData)
  : list Upload.FormData := fd :: log.

(** The [onDelete] the App hands to the dialog: [handleDelete], acting on
    the App state and the world. *)
Definition appDelete (f : Firebase.Faults) (mangaId password : string)
    (sw : App.State * Firebase.World) : App.State * Firebase.World * bool :=
  App.handleDelete f (fst sw) (snd sw) mangaId password.

End FormSpec.

(** *** Sample uploads and forms *)

Module MoreSamples.
Import Firebase.

Definition pagePng : Upload.File := Upload.mkFile "page.png" "image/png".
Definition notesTxt : Upload.File := Upload.mkFile "notes.txt" "text/plain".

Definition formD : Upload.FormData :=
  Upload.mkFormData "Delta" "dee" "2468" pagePng.

Definition envD : Upload.Env :=
  Upload.mkEnv "default-app-id" (Some "u9") 1700000000000
               (fun path => "https://storage.example/" +:+ path) "idD" 4.

(** The same surroundings with an empty user id. *)
Definition envNoUser : Upload.Env :=
  Upload.mkEnv "default-app-id" (Some "") 1700000000000
               (fun path => "https://storage.example/" +:+ path) "idD" 4.

Definition objectURL (f : Upload.File) : string := "blob:" +:+ Upload.name f.


(** A user fills in the form, mistyping the password on the way. *)
Definition fillForm : list UploadForm.Event :=
  [UploadForm.TypeTitle "Delta"; UploadForm.TypeAuthor "dee";
   UploadForm.TypePassword "2"; UploadForm.TypePassword "2x";
   UploadForm.TypePassword "24"; UploadForm.TypePassword "246";
   UploadForm.TypePassword "2468"; UploadForm.TypePassword "24680";
   UploadForm.PickFile (Some pagePng)].

End MoreSamples.

(** *** Double-precision arithmetic

    The definitions of [Elo] and [VoteView] above compute in exact
    arithmetic.  JavaScript computes in IEEE 754 doubles: every
    operation returns the double nearest to the exact result.  The
    definitions below put that rounding, [fl], around every operation of
    the ELO helpers and of the index draws; with the rounding that changes
    nothing they are the definitions above. *)

Module Double.
Import Elo Firebase VoteView.
Local Open Scope R_scope.

(** The numbers a finite double holds: [m * 2^e] with a significand of
    53 bits and an exponent between -1074 and 971. *)
Definition is_double (x : R) : Prop :=
  exists m e : Z,
    (Z.abs m < 2 ^ 53)%Z /\ (-1074 <= e <= 971)%Z /\ x = IZR m * powerRZ 2 e.

(** What IEEE 754 guarantees of [fl], the rounding of the exact result of
    an operation to the nearest double: it keeps the order, it leaves a
    double as it is, and below the overflow threshold it is off by at most
    half a unit in the last place (a relative [2^-53], or half the
    smallest subnormal [2^-1075]). *)
Record Rounding (fl : R -> R) : Prop := mkRounding {
  fl_monotone : forall x y : R, x <= y -> fl x <= fl y;
  fl_exact : forall x : R, is_double x -> fl x = x;
  fl_error : forall x : R,
    Rabs x <= 2 ^ 1023 ->
    Rabs (fl x - x) <= Rabs x / 2 ^ 53 + / 2 ^ 1075
}.

(** A result of [Math.pow] on finite arguments and a positive base: a
    double, or [Infinity] on overflow. *)
Inductive Number : Type :=
| Finite (x : R)
| Infinity.

(** What ECMAScript guarantees of [Math.pow(10, x)]: 1 for [x = 0], and
    never a negative number (the value itself is an approximation the
    implementation chooses). *)
Record PowSpec (pow : R -> R -> Number) : Prop := mkPowSpec {
  pow_zero : pow 10 0 = Finite 1;
  pow_nonneg : forall x p : R, pow 10 x = Finite p -> 0 <= p
}.

(** [1 / (1 + Math.pow(10, (ratingB - ratingA) / 400))] in doubles;
    [1 + Infinity] is [Infinity] and [1 / Infinity] is 0. *)
Definition calculateExpected64 (fl : R -> R) (pow : R -> R -> Number)
    (ratingA ratingB : R) : R :=
  match pow 10 (fl (fl (ratingB - ratingA) / 400)) with
  | Finite p => fl (1 / fl (1 + p))
  | Infinity => 0
  end.

(** [Math.floor(oldRating + K_FACTOR * (score - expected))] in doubles. *)
Definition updateElo64 (fl : R -> R) (oldRating expected score : R) : Z :=
  Math_floor (fl (oldRating + fl (K_FACTOR * fl (score - expected)))).

(** [Math.floor(Math.random() * n)] in doubles, consuming draw [k]. *)
Definition randomIndex64 (fl : R -> R) (rnd : Random) (k : nat) (n : Z) : Z :=
  Math_floor (fl (rnd k * IZR n)).

(** The draws of [Math.random()] are doubles in [0, 1): the largest is
    [1 - 2^-53]. *)
Definition double_draws (rnd : Random) : Prop :=
  forall k : nat, 0 <= rnd k <= 1 - / 2 ^ 53.

(** The loop of [getNextMatch], with the indices drawn in doubles. *)
Fixpoint redraw64 (fl : R -> R) (fuel : nat) (rnd : Random) (k : nat) (n : Z)
    (indexA indexB : Z) : option Z :=
  if decide (indexA = indexB) then
    match fuel with
    | O => None
    | S fuel' => redraw64 fl fuel' rnd (S k) n indexA (randomIndex64 fl rnd k n)
    end
  else Some indexB.

(** The uniform branch of [getNextMatch]. *)
Definition uniformBranch64 (fl : R -> R) (fuel : nat) (rnd : Random)
    (mangaList : list Manga) : option (option Match) :=
  let n := Z.of_nat (length mangaList) in
  let indexA := randomIndex64 fl rnd 1 n in
  let indexB := randomIndex64 fl rnd 2 n in
  match redraw64 fl fuel rnd 3 n indexA indexB with
  | None => None
  | Some indexB =>
      Some (Some (mkMatch (at_index mangaList indexA) (at_index mangaList indexB)))
  end.

(** The neighbour branch of [getNextMatch]. *)
Definition neighbourBranch64 (fl : R -> R) (rnd : Random)
    (mangaList : list Manga) : option (option Match) :=
  let sortedList := Array_sort byElo mangaList in
  let indexA := randomIndex64 fl rnd 1 (Z.of_nat (length sortedList) - 1) in
  let indexB := (indexA + 1)%Z in
  Some (Some (mkMatch (at_index sortedList indexA) (at_index sortedList indexB))).

(** [getNextMatch], with the indices drawn in doubles; the comparison
    [Math.random() < 0.5] is exact. *)
Definition getNextMatch64 (fl : R -> R) (fuel : nat) (rnd : Random)
    (mangaList : list Manga) : option (option Match) :=
  if decide (length mangaList < 2)%nat then Some None
  else if Rlt_dec (rnd 0%nat) (1 / 2) then uniformBranch64 fl fuel rnd mangaList
  else neighbourBranch64 fl rnd mangaList.

(** The rounding of exact arithmetic, and [Math.pow] without error. *)
Definition exact (x : R) : R := x.
Definition exactPow (b x : R) : Number := Finite (Math_pow b x).

End Double.

(** *** Doubles that compute *)

Module Binary64.
Import PrimFloat SpecFloat FloatOps.

(** [Math.floor] of a double, as an integer; [None] for [NaN] and the
    infinities. *)
Definition floor_of_double (x : float) : option Z :=
  match Prim2SF x with
  | S754_zero _ => Some 0%Z
  | S754_finite s m e =>
      let v := if s then Z.neg m else Z.pos m in
      Some (if (0 <=? e)%Z then v * 2 ^ e else v `div` 2 ^ (- e))%Z
  | _ => None
  end.

(** The real number a finite double holds. *)
Definition double_value (x : float) : R :=
  match Prim2SF x with
  | S754_finite s m e => (IZR (if s then Z.neg m else Z.pos m) * powerRZ 2 e)%R
  | _ => 0%R
  end.


(** [Math.floor(r * n)] on doubles. *)
Definition index_double (r n : float) : option Z := floor_of_double (r * n)%float.


(** A draw of [Math.random()], 0.8333333333333333. *)
Definition fiveSixths : float := 0x1.aaaaaaaaaaaaap-1%float.

Definition rating1500 : float := 1500%float.
Definition half : float := 0.5%float.
Definition six : float := 6%float.

End Binary64.

(** *** Proof automation *)

(** A premise that a call rejected, in a run where it did not. *)
Ltac fault_absent :=
  match goal with
  | H : is_Some None |- _ => destruct H as [? H]; discriminate H
  | H : is_Some None \/ is_Some None |- _ =>
      destruct H as [[? H]|[? H]]; discriminate H
  | H : Firebase.mkFaults _ _ _ = Firebase.no_faults |- _ => discriminate H
  | H : Some _ = None |- _ => discriminate H
  | H : true = false |- _ => discriminate H
  end.

(** ** Part II: properties *)

(** *** RatingEngine *)

Section RatingEngine.
Import Elo.
Local Open Scope R_scope.

Lemma Math_pow_pos (x : R) : 0 < Math_pow 10 x.
Proof. unfold Math_pow, Rpower. apply exp_pos. Qed.

Lemma Math_pow_opp (x : R) : Math_pow 10 (- x) = / Math_pow 10 x.
Proof. unfold Math_pow. apply Rpower_Ropp. Qed.



(** [Math.floor] is the floor: the one integer within one below. *)
Lemma Math_floor_spec (x : R) (n : Z) :
  IZR n <= x < IZR n + 1 <-> Math_floor x = n.
Proof.
  unfold Math_floor. split.
  - apply Zfloor_eq.
  - intros <-. apply Zfloor_bound.
Qed.




(** 10^(5/4), the odds for a rating gap of 500. *)
Lemma pow10_gap500 : 1778 / 100 < Math_pow 10 (5 / 4) < 1779 / 100.
Proof.
  set (p := Math_pow 10 (5 / 4)).
  assert (Hp : 0 < p) by apply Math_pow_pos.
  assert (H4 : p ^ 4 = 100000).
  { rewrite <- (Rpower_pow 4 p Hp). unfold p, Math_pow.
    rewrite Rpower_mult.
    replace (5 / 4 * INR 4) with (INR 5) by (simpl; lra).
    rewrite Rpower_pow by lra. simpl. lra. }
  split.
  - destruct (Rlt_le_dec (1778 / 100) p) as [|Hle]; [assumption|exfalso].
    assert (p ^ 4 <= (1778 / 100) ^ 4) by (apply pow_incr; lra).
    simpl in *. lra.
  - destruct (Rlt_le_dec p (1779 / 100)) as [|Hle]; [assumption|exfalso].
    assert ((1779 / 100) ^ 4 <= p ^ 4) by (apply pow_incr; lra).
    simpl in *. lra.
Qed.

Lemma calculateExpected_1000_1500 :
  532 / 10000 < calculateExpected 1000 1500 < 533 / 10000.
Proof.
  unfold calculateExpected.
  replace ((1500 - 1000) / 400) with (5 / 4) by lra.
  destruct pow10_gap500 as [Hl Hu].
  set (p := Math_pow 10 (5 / 4)) in *.
  split.
  - apply Rmult_lt_reg_r with (1 + p); [lra|].
    unfold Rdiv at 2. rewrite Rmult_assoc, Rinv_l by lra. lra.
  - apply Rmult_lt_reg_r with (1 + p); [lra|].
    unfold Rdiv at 1. rewrite Rmult_assoc, Rinv_l by lra. lra.
Qed.

(** What one side is expected to score, the other is expected to lose. *)
Lemma calculateExpected_swap (ra rb : R) :
  calculateExpected rb ra = 1 - calculateExpected ra rb.
Proof.
  unfold calculateExpected.
  replace ((ra - rb) / 400) with (- ((rb - ra) / 400)) by lra.
  rewrite Math_pow_opp.
  set (q := Math_pow 10 _).
  assert (Hq : 0 < q) by apply Math_pow_pos.
  field. split; lra.
Qed.


(** C3: the expected scores of the two sides of a matchup add up to 1,
    for all ratings, in exact arithmetic. *)
Theorem calculateExpected_sum (ra rb : R) :
  calculateExpected ra rb + calculateExpected rb ra = 1.
Proof. rewrite (calculateExpected_swap ra rb). lra. Qed.

(** C2, as the claim has it, fails: for ratings 1000 and 1500 the expected
    score of the winner is not near 0.0909 and the new ratings are neither
    1029 nor 1470. *)
Lemma underdog_1000_1500_not_as_claimed :
  ~ (9 / 100 < calculateExpected 1000 1500 < 92 / 1000)
  /\ updateElo 1000 (calculateExpected 1000 1500) 1 <> 1029%Z
  /\ updateElo 1500 (calculateExpected 1500 1000) 0 <> 1470%Z.
Proof.
  pose proof calculateExpected_1000_1500 as He.
  pose proof (calculateExpected_swap 1000 1500) as Hs.
  split; [lra|]. split.
  - intros H. apply Math_floor_spec in H. unfold K_FACTOR in H. lra.
  - intros H. apply Math_floor_spec in H. unfold K_FACTOR in H. lra.
Qed.

(** C2, amended: for a winner rated 1000 and a loser rated 1500 the
    expected score of the winner is about 0.0532 (between 0.0532 and
    0.0533), and the new ratings are exactly 1030 and 1469. *)
Theorem underdog_1000_1500 :
  532 / 10000 < calculateExpected 1000 1500 < 533 / 10000
  /\ updateElo 1000 (calculateExpected 1000 1500) 1 = 1030%Z
  /\ updateElo 1500 (calculateExpected 1500 1000) 0 = 1469%Z.
Proof.
  pose proof calculateExpected_1000_1500 as He.
  pose proof (calculateExpected_swap 1000 1500) as Hs.
  split; [exact He|].
  split; apply Math_floor_spec; unfold K_FACTOR; lra.
Qed.


End RatingEngine.

(** *** VotingCoordinator *)

Section VotingCoordinator.
Import Elo Firebase App.

Lemma voteTransaction_found (db : Collection) (winnerId loserId : string)
    (winner loser : MangaData) :
  db !! winnerId = Some winner -> db !! loserId = Some loser ->
  voteTransaction winnerId loserId db
    = Return
        [(winnerId,
          updateElo (IZR (elo winner))
            (calculateExpected (IZR (elo winner)) (IZR (elo loser))) 1);
         (loserId,
          updateElo (IZR (elo loser))
            (calculateExpected (IZR (elo loser)) (IZR (elo winner))) 0)].
Proof. intros Hw Hl. unfold voteTransaction. rewrite Hw, Hl. reflexivity. Qed.

Lemma voteTransaction_missing (db : Collection) (winnerId loserId : string) :
  db !! winnerId = None \/ db !! loserId = None ->
  voteTransaction winnerId loserId db = Throw "作品データが見つかりません。".
Proof.
  intros [H|H]; unfold voteTransaction; rewrite H;
    [|destruct (db !! winnerId)]; reflexivity.
Qed.

(** A vote commits exactly when the service does not fail and both
    documents exist. *)
Lemma runTransaction_vote_commits (transport : option string) (db : Collection)
    (winnerId loserId : string) :
  snd (runTransaction transport db (voteTransaction winnerId loserId)) = Return tt
  <-> transport = None /\ is_Some (db !! winnerId) /\ is_Some (db !! loserId).
Proof.
  unfold runTransaction. split.
  - destruct transport; [discriminate|].
    unfold voteTransaction.
    destruct (db !! winnerId), (db !! loserId); simpl; try discriminate.
    intros _. repeat split; eauto.
  - intros (-> & [winner Hw] & [loser Hl]).
    rewrite (voteTransaction_found _ _ _ _ _ Hw Hl). reflexivity.
Qed.



(** C5: when the winner's or the loser's document is missing, the
    transaction throws the not-found error, [handleVote] reports it and
    the collection, hence every surviving document, is left as it was. *)
Theorem handleVote_missing (transport : option string) (s : State)
    (db : Collection) (winnerId loserId : string) :
  db !! winnerId = None \/ db !! loserId = None ->
  voteTransaction winnerId loserId db = Throw "作品データが見つかりません。"
  /\ handleVote None s db winnerId loserId
      = (mkState (mangaList s) false
           (Some (mkMessage "error"
                    "投票処理に失敗しました: 作品データが見つかりません。")),
         db)
  /\ snd (handleVote transport s db winnerId loserId) = db
  /\ is_Some (message (fst (handleVote transport s db winnerId loserId)))
  /\ (forall (i : string) (d : MangaData), db !! i = Some d ->
      snd (handleVote transport s db winnerId loserId) !! i = Some d).
Proof.
  intros Hmiss.
  pose proof (voteTransaction_missing _ _ _ Hmiss) as Htx.
  assert (Hdb : snd (handleVote transport s db winnerId loserId) = db).
  { unfold handleVote, runTransaction. rewrite Htx.
    destruct transport; reflexivity. }
  split; [exact Htx|]. split.
  - unfold handleVote, runTransaction. rewrite Htx. reflexivity.
  - split; [exact Hdb|]. split.
    + unfold handleVote, runTransaction. rewrite Htx.
      destruct transport; simpl; eauto.
    + intros i d Hi. rewrite Hdb. exact Hi.
Qed.


Lemma handleVote_missing_witness :
  (Samples.collectionAB !! "idA" = None \/ Samples.collectionAB !! "idC" = None)
  /\ snd (handleVote None Samples.staleState Samples.collectionAB "idA" "idC")
       !! "idA" = Some Samples.mangaA.
Proof.
  split; [right; reflexivity|].
  destruct (handleVote_missing None Samples.staleState Samples.collectionAB
              "idA" "idC" (or_intror eq_refl))
    as (_ & _ & _ & _ & Hkeep).
  apply Hkeep. reflexivity.
Defined.

End VotingCoordinator.

(** *** Deletion *)

Section Deletion.
Import Firebase App.

Lemma handleDelete_wrong_password (f : Faults) (s : State) (w : World)
    (id password : string) (d : MangaData) :
  firestore w !! id = Some d ->
  Firebase.password d <> password ->
  snd (fst (handleDelete f s w id password)) = w
  /\ snd (handleDelete f s w id password) = false.
Proof.
  intros Hd Hpw. unfold handleDelete, getDoc.
  destruct (getDoc_fault f); [split; reflexivity|].
  rewrite Hd. destruct (decide (Firebase.password d = password)); [contradiction|].
  split; reflexivity.
Qed.

Lemma handleDelete_not_found (f : Faults) (s : State) (w : World)
    (id password : string) :
  firestore w !! id = None ->
  snd (fst (handleDelete f s w id password)) = w
  /\ snd (handleDelete f s w id password) = false.
Proof.
  intros Hd. unfold handleDelete, getDoc.
  destruct (getDoc_fault f); [split; reflexivity|].
  rewrite Hd. split; reflexivity.
Qed.

(** The world and the result of a run that found the document and the
    password right, by the first call that rejects. *)
Lemma handleDelete_runs (f : Faults) (s : State) (w : World)
    (id password : string) (d : MangaData) :
  firestore w !! id = Some d ->
  Firebase.password d = password ->
  (snd (fst (handleDelete f s w id password)), snd (handleDelete f s w id password))
  = match getDoc_fault f, deleteObject_fault f, deleteDoc_fault f with
    | Some _, _, _ => (w, false)
    | None, Some _, _ => (w, false)
    | None, None, Some _ =>
        (mkWorld (firestore w) (bucket w ∖ {[storagePath d]}), false)
    | None, None, None =>
        (mkWorld (delete id (firestore w)) (bucket w ∖ {[storagePath d]}), true)
    end.
Proof.
  intros Hd Hpw. unfold handleDelete, getDoc, deleteObject, deleteDoc.
  destruct (getDoc_fault f); [reflexivity|].
  rewrite Hd, (decide_True _ _ Hpw).
  destruct (deleteObject_fault f); [reflexivity|].
  destruct (deleteDoc_fault f); reflexivity.
Qed.

(** C9, as the claim has it, fails: when [deleteDoc] rejects, the image
    is already gone from the bucket and the document is still in the
    collection; and when [deleteObject] rejects, the document has not been
    deleted before it. *)
Lemma handleDelete_record_outlives_blob :
  let between :=
    handleDelete (mkFaults None None (Some "unavailable"))
                 Samples.staleState Samples.worldAB "idA" "1234" in
  let first :=
    handleDelete (mkFaults None (Some "unavailable") None)
                 Samples.staleState Samples.worldAB "idA" "1234" in
  (storagePath Samples.mangaA ∈ bucket Samples.worldAB)
  /\ snd between = false
  /\ firestore (snd (fst between)) !! "idA" = Some Samples.mangaA
  /\ (storagePath Samples.mangaA ∉ bucket (snd (fst between)))
  /\ snd first = false
  /\ firestore (snd (fst first)) !! "idA" = Some Samples.mangaA.
Proof.
  cbv zeta. split; [set_solver|].
  split; [reflexivity|]. split; [reflexivity|].
  split; [|split; reflexivity].
  change (bucket _) with (bucket Samples.worldAB ∖ {[storagePath Samples.mangaA]}).
  set_solver.
Qed.

(** C9, amended: once the stored password is found equal to the one
    supplied, [handleDelete] deletes the image first and the document
    second, one after the other; a failure between the two leaves the
    document without its image, and no run leaves the image of a deleted
    document behind.  With a wrong password nothing is deleted. *)
Theorem handleDelete_blob_then_record (f : Faults) (s : State) (w : World)
    (id password : string) (d : MangaData) :
  firestore w !! id = Some d ->
  let w' := snd (fst (handleDelete f s w id password)) in
  let ok := snd (handleDelete f s w id password) in
  (Firebase.password d <> password -> w' = w /\ ok = false)
  /\ (Firebase.password d = password ->
      (f = no_faults ->
         ok = true /\ firestore w' = delete id (firestore w)
         /\ bucket w' = bucket w ∖ {[storagePath d]})
      /\ (getDoc_fault f = None -> deleteObject_fault f = None ->
          is_Some (deleteDoc_fault f) ->
          ok = false /\ firestore w' = firestore w
          /\ bucket w' = bucket w ∖ {[storagePath d]})
      /\ (is_Some (getDoc_fault f) \/ is_Some (deleteObject_fault f) ->
          ok = false /\ w' = w)
      /\ (firestore w' !! id = None -> storagePath d ∉ bucket w')
      /\ (ok = true <-> firestore w' !! id = None)).
Proof.
  intros Hd w' ok. split.
  - intros Hpw. apply (handleDelete_wrong_password f s w id password d Hd Hpw).
  - intros Hpw.
    pose proof (handleDelete_runs f s w id password d Hd Hpw) as Hrun.
    fold w' ok in Hrun. clearbody w' ok.
    destruct f as [fg fo fd]; cbn [getDoc_fault deleteObject_fault deleteDoc_fault] in *.
    destruct fg as [eg|]; [|destruct fo as [eo|]; [|destruct fd as [ed|]]];
      injection Hrun as -> ->; cbn [firestore bucket];
      repeat split; try fault_absent; try congruence.
    + set_solver.
    + rewrite lookup_delete_eq. reflexivity.
Qed.

Lemma handleDelete_blob_then_record_witness :
  firestore Samples.worldAB !! "idA" = Some Samples.mangaA
  /\ snd (handleDelete no_faults Samples.staleState Samples.worldAB "idA" "1234")
     = true
  /\ firestore (snd (fst (handleDelete no_faults Samples.staleState
                            Samples.worldAB "idA" "1234"))) !! "idA" = None.
Proof.
  split; [reflexivity|].
  destruct (handleDelete_blob_then_record no_faults Samples.staleState
              Samples.worldAB "idA" "1234" Samples.mangaA eq_refl)
    as (_ & Hmatch).
  destruct (Hmatch eq_refl) as (Hok & _ & _ & _ & Hiff).
  destruct (Hok eq_refl) as (Htrue & _).
  split; [exact Htrue|]. apply Hiff. exact Htrue.
Defined.

End Deletion.

(** *** MatchSelector *)

Section MatchSelector.
Import Elo Firebase VoteView.


(** The draws that give index [j]: an interval of length [1 / n]. *)
Lemma randomIndex_interval (rnd : Random) (k : nat) (n j : Z) :
  (0 < n)%Z ->
  randomIndex rnd k n = j
  <-> (IZR j / IZR n <= rnd k < (IZR j + 1) / IZR n)%R.
Proof.
  intros Hn. apply IZR_lt in Hn.
  unfold randomIndex. rewrite <- Math_floor_spec.
  assert (Hj : (IZR j / IZR n * IZR n = IZR j)%R) by (field; lra).
  assert (Hj1 : ((IZR j + 1) / IZR n * IZR n = IZR j + 1)%R) by (field; lra).
  split; intros [H1 H2]; split.
  - apply Rmult_le_reg_r with (IZR n); [lra|]. rewrite Hj. exact H1.
  - apply Rmult_lt_reg_r with (IZR n); [lra|]. rewrite Hj1. exact H2.
  - rewrite <- Hj. apply Rmult_le_compat_r; lra.
  - rewrite <- Hj1. apply Rmult_lt_compat_r; lra.
Qed.

Lemma at_index_in_range {A : Type} (l : list A) (i : Z) :
  (0 <= i < Z.of_nat (length l))%Z ->
  exists x : A, at_index l i = Some x /\ l !! Z.to_nat i = Some x.
Proof.
  intros Hi. unfold at_index. rewrite decide_True by lia.
  destruct (lookup_lt_is_Some_2 l (Z.to_nat i)) as [x Hx]; [lia|].
  exists x. split; assumption.
Qed.


(** [Array_sort] rearranges and orders. *)
Lemma insert_by_Permutation {A : Type} (compareFn : A -> A -> Z) (x : A) (l : list A) :
  insert_by compareFn x l ≡ₚ x :: l.
Proof.
  induction l as [|y l IH]; simpl; [reflexivity|].
  destruct (decide (compareFn x y <= 0)%Z); [reflexivity|].
  rewrite IH. apply Permutation_swap.
Qed.

Lemma Array_sort_Permutation {A : Type} (compareFn : A -> A -> Z) (l : list A) :
  Array_sort compareFn l ≡ₚ l.
Proof.
  induction l as [|x l IH]; simpl; [reflexivity|].
  rewrite insert_by_Permutation. rewrite IH. reflexivity.
Qed.

Lemma Array_sort_length {A : Type} (compareFn : A -> A -> Z) (l : list A) :
  length (Array_sort compareFn l) = length l.
Proof. apply Permutation_length, Array_sort_Permutation. Qed.

Lemma insert_by_HdRel (x z : Manga) (l : list Manga) :
  elo_le z x -> HdRel elo_le z l -> HdRel elo_le z (insert_by byElo x l).
Proof.
  intros Hzx Hz. destruct l as [|y l]; simpl; [constructor; assumption|].
  destruct (decide (byElo x y <= 0)%Z); constructor; [assumption|].
  inversion Hz; assumption.
Qed.

Lemma insert_by_Sorted (x : Manga) (l : list Manga) :
  Sorted elo_le l -> Sorted elo_le (insert_by byElo x l).
Proof.
  induction 1 as [|y l Hs IH Hhd]; simpl.
  - repeat constructor.
  - destruct (decide (byElo x y <= 0)%Z) as [Hle|Hgt].
    + constructor; [constructor; assumption|].
      constructor. unfold elo_le, byElo in *. lia.
    + constructor; [exact IH|].
      apply insert_by_HdRel; [|exact Hhd].
      unfold elo_le, byElo in *. lia.
Qed.

Lemma Array_sort_Sorted (l : list Manga) : Sorted elo_le (Array_sort byElo l).
Proof.
  induction l as [|x l IH]; simpl; [constructor|].
  apply insert_by_Sorted, IH.
Qed.

(** Neighbours in an ordered list are in order. *)
Lemma Sorted_neighbours (l : list Manga) (i : nat) (x y : Manga) :
  Sorted elo_le l -> l !! i = Some x -> l !! S i = Some y -> elo_le x y.
Proof.
  intros Hs. revert i. induction Hs as [|z l Hs IH Hhd]; intros i Hx Hy.
  - discriminate.
  - destruct i as [|i]; simpl in Hx, Hy.
    + injection Hx as ->. destruct l as [|z' l]; [discriminate|].
      simpl in Hy. injection Hy as ->. inversion Hhd; assumption.
    + eapply IH; eassumption.
Qed.



(** C7: with fewer than two entries [getNextMatch] sets the match to
    [null], whatever the draws, and the view then shows the notice that
    two entries are needed; no pair is shown. *)
Theorem getNextMatch_insufficient (fuel : nat) (rnd : Random) (mangaList : list Manga) :
  (length mangaList < 2)%nat ->
  getNextMatch fuel rnd mangaList = Some None
  /\ render mangaList None
     = Notice "作品が2つ以上登録されると投票が開始されます。"
  /\ (forall x y : Manga, render mangaList None <> Versus x y).
Proof.
  intros Hlen. unfold getNextMatch, render.
  rewrite !decide_True by exact Hlen.
  repeat split. discriminate.
Qed.

Lemma getNextMatch_insufficient_witness :
  (length [mkManga "idA" Samples.mangaA] < 2)%nat
  /\ getNextMatch 5 Samples.collidingDraws [mkManga "idA" Samples.mangaA]
     = Some None.
Proof.
  assert (Hlen : (length [mkManga "idA" Samples.mangaA] < 2)%nat) by (simpl; lia).
  split; [exact Hlen|].
  apply (getNextMatch_insufficient 5 Samples.collidingDraws
           [mkManga "idA" Samples.mangaA] Hlen).
Defined.



(** The run on the same list with draws 0.25, 0.1, 0.2, 0.6, ...: the
    two indices collide at 0, the loop draws again and gets 1. *)
Example getNextMatch_redraws :
  getNextMatch 0 Samples.collidingDraws Samples.listABC = None
  /\ getNextMatch 1 Samples.collidingDraws Samples.listABC
     = Some (Some (mkMatch (Some (mkManga "idA" Samples.mangaA))
                           (Some (mkManga "idB" Samples.mangaB)))).
Proof.
  assert (H1 : randomIndex Samples.collidingDraws 1 3 = 0%Z).
  { apply Math_floor_spec. simpl. lra. }
  assert (H2 : randomIndex Samples.collidingDraws 2 3 = 0%Z).
  { apply Math_floor_spec. simpl. lra. }
  assert (H3 : randomIndex Samples.collidingDraws 3 3 = 1%Z).
  { apply Math_floor_spec. simpl. lra. }
  unfold getNextMatch.
  rewrite !decide_False by (simpl; lia).
  destruct (Rlt_dec (Samples.collidingDraws 0) (1 / 2)) as [_|Hno];
    [|exfalso; apply Hno; simpl; lra].
  change (Z.of_nat (length Samples.listABC)) with 3%Z.
  rewrite H1, H2. simpl redraw. rewrite H3. split; reflexivity.
Qed.

End MatchSelector.

(** ** Part III: further properties of the code *)

(** *** How ratings move *)

Section RatingMoves.
Import Elo.
Local Open Scope R_scope.

Lemma Math_pow_lt (x y : R) : x < y -> Math_pow 10 x < Math_pow 10 y.
Proof. intros H. unfold Math_pow. apply Rpower_lt; lra. Qed.

Lemma Math_pow_0 : Math_pow 10 0 = 1.
Proof. unfold Math_pow. apply Rpower_O. lra. Qed.

(** A smaller power of ten in the denominator is a larger expected score. *)
Lemma expected_antitone (p q : R) :
  0 < p -> p < q -> 1 / (1 + q) < 1 / (1 + p).
Proof.
  intros Hp Hpq. unfold Rdiv. rewrite !Rmult_1_l.
  apply Rinv_lt_contravar; [|lra].
  apply Rmult_lt_0_compat; lra.
Qed.


Lemma expected_shrinks (ra rb rb' : R) :
  rb' < rb -> calculateExpected ra rb < calculateExpected ra rb'.
Proof.
  intros Hb. unfold calculateExpected.
  apply expected_antitone; [apply Math_pow_pos|].
  apply Math_pow_lt. lra.
Qed.




End RatingMoves.

(** *** What a vote leaves alone *)

Section VoteInvariants.
Import Elo Firebase App VoteFlow.

Lemma same_but_elo_refl (d : MangaData) : same_but_elo d d.
Proof. destruct d. reflexivity. Qed.

Lemma same_but_elo_set (d d' : MangaData) (v : Z) :
  same_but_elo d d' -> same_but_elo d (set_elo v d').
Proof. intros ->. reflexivity. Qed.

Lemma commit_lookup (writes : list Update) (db : Collection) (i : string) :
  match db !! i, commit writes db !! i with
  | Some d, Some d' => same_but_elo d d'
  | None, None => True
  | _, _ => False
  end.
Proof.
  revert db. induction writes as [|[j v] writes IH]; intros db.
  - simpl. destruct (db !! i); [apply same_but_elo_refl|exact I].
  - change (commit ((j, v) :: writes) db)
      with (commit writes (alter (set_elo v) j db)).
    specialize (IH (alter (set_elo v) j db)).
    destruct (decide (j = i)) as [->|Hne].
    + rewrite lookup_alter_eq in IH.
      destruct (db !! i) as [d|]; simpl in IH;
        destruct (commit writes _ !! i) as [d'|]; exact IH.
    + rewrite lookup_alter_ne in IH by exact Hne. exact IH.
Qed.

Lemma handleVote_db (transport : option string) (s : State) (db : Collection)
    (winnerId loserId : string) :
  snd (handleVote transport s db winnerId loserId) = db
  \/ exists writes : list Update,
       snd (handleVote transport s db winnerId loserId) = commit writes db.
Proof.
  unfold handleVote, runTransaction.
  destruct transport; [left; reflexivity|].
  destruct (voteTransaction winnerId loserId db) as [writes|err].
  - right. exists writes. reflexivity.
  - left. reflexivity.
Qed.

(** X5: whatever the ids and whether or not it succeeds, [handleVote]
    neither adds nor removes a document, and changes no field of a
    document other than its rating. *)
Theorem handleVote_keeps_documents (transport : option string) (s : State)
    (db : Collection) (winnerId loserId : string) :
  let db' := snd (handleVote transport s db winnerId loserId) in
  dom db' = dom db
  /\ forall (i : string) (d' : MangaData), db' !! i = Some d' ->
     exists d : MangaData,
       db !! i = Some d
       /\ title d' = title d /\ author d' = author d
       /\ password d' = password d /\ imageUrl d' = imageUrl d
       /\ storagePath d' = storagePath d /\ createdAt d' = createdAt d
       /\ uploaderUid d' = uploaderUid d.
Proof.
  intros db'.
  assert (Hall : forall i : string,
            match db !! i, db' !! i with
            | Some d, Some d' => same_but_elo d d'
            | None, None => True
            | _, _ => False
            end).
  { intros i. subst db'.
    destruct (handleVote_db transport s db winnerId loserId) as [->|[ws ->]].
    - destruct (db !! i); [apply same_but_elo_refl|exact I].
    - apply commit_lookup. }
  split.
  - apply set_eq. intros i. rewrite !elem_of_dom.
    specialize (Hall i).
    destruct (db !! i), (db' !! i); try contradiction;
      split; intros [x Hx]; try discriminate; eauto.
  - intros i d' Hd'. specialize (Hall i). rewrite Hd' in Hall.
    destruct (db !! i) as [d|]; [|contradiction].
    exists d. split; [reflexivity|].
    unfold same_but_elo in Hall. rewrite Hall. repeat split.
Qed.

(** X6: [handleVote] always ends the loading state and leaves the cached
    list alone; it keeps the message when the service does not fail and
    both documents exist, and otherwise writes nothing and reports the
    failure with the message of the error. *)
Theorem handleVote_reports (transport : option string) (s : State)
    (db : Collection) (winnerId loserId : string) :
  let s' := fst (handleVote transport s db winnerId loserId) in
  let db' := snd (handleVote transport s db winnerId loserId) in
  isLoading s' = false
  /\ mangaList s' = mangaList s
  /\ (transport = None /\ is_Some (db !! winnerId) /\ is_Some (db !! loserId) ->
      message s' = message s)
  /\ (~ (transport = None /\ is_Some (db !! winnerId) /\ is_Some (db !! loserId)) ->
      db' = db
      /\ exists err : string,
           message s'
           = Some (mkMessage "error" ("投票処理に失敗しました: " +:+ err))
           /\ (forall e : string, transport = Some e -> err = e)).
Proof.
  intros s' db'. subst s' db'.
  pose proof (runTransaction_vote_commits transport db winnerId loserId) as Hiff.
  unfold handleVote.
  destruct (runTransaction transport db (voteTransaction winnerId loserId))
    as [db1 r] eqn:Hrun.
  cbn [fst snd] in *.
  split; [reflexivity|]. split; [destruct r; reflexivity|]. split.
  - intros Hok. apply Hiff in Hok. subst r. reflexivity.
  - intros Hno. destruct r as [[]|err]; [exfalso; apply Hno, Hiff; reflexivity|].
    unfold runTransaction in Hrun.
    destruct transport as [e|].
    + injection Hrun as Hdb Herr. subst db1 err. split; [reflexivity|].
      exists e. split; [reflexivity|]. intros e' [= <-]. reflexivity.
    + destruct (voteTransaction winnerId loserId db) as [|thrown]; [discriminate|].
      injection Hrun as Hdb Herr. subst db1 err. split; [reflexivity|].
      exists thrown. split; [reflexivity|]. discriminate.
Qed.






End VoteInvariants.

(** *** Uploading, and deleting what was uploaded *)

Section UploadAndDelete.
Import Firebase App.

(** The world a run of [handleUpload] by a signed-in user ends in, by the
    first call that rejects. *)
Lemma handleUpload_runs (e : Upload.Env) (f : Upload.Faults) (s : State)
    (w : World) (formData : Upload.FormData) (uid : string) :
  Upload.signedIn (Upload.userId e) = Some uid ->
  let path := Upload.storagePathOf e formData in
  let uploaded := mkWorld (firestore w) ({[ path ]} ∪ bucket w) in
  snd (Upload.handleUpload e f s w formData)
  = match Upload.uploadBytes_fault f, Upload.getDownloadURL_fault f,
          Upload.addDoc_fault f with
    | Some _, _, _ => w
    | None, Some _, _ => uploaded
    | None, None, Some _ => uploaded
    | None, None, None =>
        mkWorld (<[Upload.newId e :=
                   Upload.newDocument e uid formData (Upload.downloadURL e path)]>
                   (firestore w))
                ({[ path ]} ∪ bucket w)
    end.
Proof.
  intros Huid path uploaded.
  unfold Upload.handleUpload, Upload.uploadBytes, Upload.getDownloadURL,
    Upload.addDoc.
  rewrite Huid.
  destruct (Upload.uploadBytes_fault f); [reflexivity|].
  destruct (Upload.getDownloadURL_fault f); [reflexivity|].
  destruct (Upload.addDoc_fault f); reflexivity.
Qed.

(** X9: without a signed-in user (no user, or an empty user id)
    [handleUpload] stores nothing, whatever the form holds, and reports the
    authentication error. *)
Theorem handleUpload_not_signed_in (e : Upload.Env) (f : Upload.Faults)
    (s : State) (w : World) (formData : Upload.FormData) :
  Upload.userId e = None \/ Upload.userId e = Some "" ->
  Upload.handleUpload e f s w formData
  = (mkState (mangaList s) false
       (Some (mkMessage "error" "認証エラー。再読み込みしてください。")), w).
Proof.
  intros [H|H]; unfold Upload.handleUpload, Upload.signedIn; rewrite H;
    reflexivity.
Qed.

Lemma handleUpload_not_signed_in_witness :
  (Upload.userId MoreSamples.envNoUser = None
   \/ Upload.userId MoreSamples.envNoUser = Some "")
  /\ snd (Upload.handleUpload MoreSamples.envNoUser Upload.no_faults
            Samples.staleState Samples.worldAB MoreSamples.formD)
     = Samples.worldAB.
Proof.
  split; [right; reflexivity|].
  rewrite (handleUpload_not_signed_in MoreSamples.envNoUser Upload.no_faults
             Samples.staleState Samples.worldAB MoreSamples.formD
             (or_intror eq_refl)).
  reflexivity.
Defined.

(** X10: when a signed-in user uploads and no call fails, the collection
    gains, under the id the store assigns, a document with rating 1500,
    the password and names of the form, the user's id and the path of the
    image, which is now in the bucket; every other document and every
    other image is as before, and success is reported. *)
Theorem handleUpload_stores (e : Upload.Env) (s : State) (w : World)
    (formData : Upload.FormData) (uid : string) :
  Upload.signedIn (Upload.userId e) = Some uid ->
  let s' := fst (Upload.handleUpload e Upload.no_faults s w formData) in
  let w' := snd (Upload.handleUpload e Upload.no_faults s w formData) in
  (exists d : MangaData,
     firestore w' !! Upload.newId e = Some d
     /\ elo d = 1500%Z
     /\ title d = Upload.title formData
     /\ author d = Upload.author formData
     /\ password d = Upload.password formData
     /\ uploaderUid d = uid
     /\ storagePath d = Upload.storagePathOf e formData
     /\ storagePath d ∈ bucket w')
  /\ (forall i : string, i <> Upload.newId e ->
      firestore w' !! i = firestore w !! i)
  /\ (forall path : string, path <> Upload.storagePathOf e formData ->
      path ∈ bucket w' <-> path ∈ bucket w)
  /\ s' = mkState (mangaList s) false
            (Some (mkMessage "success" "アップロードが完了しました！")).
Proof.
  intros Huid s' w'.
  pose proof (handleUpload_runs e Upload.no_faults s w formData uid Huid) as Hrun.
  cbn zeta in Hrun. cbn [Upload.no_faults Upload.uploadBytes_fault
    Upload.getDownloadURL_fault Upload.addDoc_fault] in Hrun.
  fold w' in Hrun. split; [|split; [|split]].
  - eexists. rewrite Hrun. cbn [firestore bucket].
    split; [apply lookup_insert_eq|].
    repeat split. cbn [storagePath Upload.newDocument]. set_solver.
  - intros i Hi. rewrite Hrun. cbn [firestore].
    rewrite lookup_insert_ne by congruence. reflexivity.
  - intros path Hpath. rewrite Hrun. cbn [bucket]. set_solver.
  - subst s'. unfold Upload.handleUpload. rewrite Huid. reflexivity.
Qed.

Lemma handleUpload_stores_witness :
  Upload.signedIn (Upload.userId MoreSamples.envD) = Some "u9"
  /\ (forall i : string, i <> "idD" ->
      firestore (snd (Upload.handleUpload MoreSamples.envD Upload.no_faults
                        Samples.staleState Samples.worldAB MoreSamples.formD))
        !! i = firestore Samples.worldAB !! i).
Proof.
  split; [reflexivity|].
  destruct (handleUpload_stores MoreSamples.envD Samples.staleState
              Samples.worldAB MoreSamples.formD "u9" eq_refl)
    as (_ & Hothers & _).
  exact Hothers.
Defined.

(** X11: when a call of [handleUpload] fails, no document is created and an
    error is reported; if the call that fails comes after [uploadBytes],
    the image stays in the bucket with no document for it. *)
Theorem handleUpload_failure (e : Upload.Env) (f : Upload.Faults) (s : State)
    (w : World) (formData : Upload.FormData) (uid : string) :
  Upload.signedIn (Upload.userId e) = Some uid ->
  f <> Upload.no_faults ->
  let s' := fst (Upload.handleUpload e f s w formData) in
  let w' := snd (Upload.handleUpload e f s w formData) in
  firestore w' = firestore w
  /\ (exists text : string, message s' = Some (mkMessage "error" text))
  /\ (is_Some (Upload.uploadBytes_fault f) -> w' = w)
  /\ (Upload.uploadBytes_fault f = None ->
      bucket w' = {[ Upload.storagePathOf e formData ]} ∪ bucket w).
Proof.
  intros Huid Hf s' w'.
  pose proof (handleUpload_runs e f s w formData uid Huid) as Hrun.
  cbn zeta in Hrun. fold w' in Hrun.
  assert (Hmsg : exists text : string, message s' = Some (mkMessage "error" text)).
  { subst s'. unfold Upload.handleUpload, Upload.uploadBytes,
      Upload.getDownloadURL, Upload.addDoc. rewrite Huid.
    destruct f as [[a|] [b|] [c|]]; cbn; eauto.
    exfalso. apply Hf. reflexivity. }
  clearbody w' s'.
  destruct f as [[a|] [b|] [c|]];
    cbn [Upload.uploadBytes_fault Upload.getDownloadURL_fault
         Upload.addDoc_fault] in *; subst w';
    try (exfalso; apply Hf; reflexivity);
    repeat split; try exact Hmsg; try discriminate; try reflexivity;
    try (destruct w; reflexivity);
    try (intros [x Hx]; discriminate).
Qed.

Lemma handleUpload_failure_witness :
  Upload.signedIn (Upload.userId MoreSamples.envD) = Some "u9"
  /\ Upload.mkFaults None None (Some "permission-denied") <> Upload.no_faults
  /\ firestore (snd (Upload.handleUpload MoreSamples.envD
                       (Upload.mkFaults None None (Some "permission-denied"))
                       Samples.staleState Samples.worldAB MoreSamples.formD))
     = firestore Samples.worldAB.
Proof.
  assert (Hf : Upload.mkFaults None None (Some "permission-denied")
               <> Upload.no_faults) by discriminate.
  split; [reflexivity|]. split; [exact Hf|].
  destruct (handleUpload_failure MoreSamples.envD _ Samples.staleState
              Samples.worldAB MoreSamples.formD "u9" eq_refl Hf)
    as (Hdb & _).
  exact Hdb.
Defined.

(** What a [true] from [handleDelete] means. *)
Lemma handleDelete_true (f : Faults) (s : State) (w : World)
    (id password : string) :
  snd (handleDelete f s w id password) = true ->
  exists d : MangaData,
    firestore w !! id = Some d
    /\ Firebase.password d = password
    /\ snd (fst (handleDelete f s w id password))
       = mkWorld (delete id (firestore w)) (bucket w ∖ {[storagePath d]}).
Proof.
  unfold handleDelete, getDoc, deleteObject, deleteDoc.
  destruct (getDoc_fault f); [discriminate|].
  destruct (firestore w !! id) as [d|]; [|discriminate].
  destruct (decide (Firebase.password d = password)) as [Hpw|]; [|discriminate].
  destruct (deleteObject_fault f); [discriminate|].
  destruct (deleteDoc_fault f); [discriminate|].
  intros _. exists d. repeat split. exact Hpw.
Qed.

(** X12: when no call fails, [handleDelete] returns [true] exactly when the
    document exists and its stored password is the one supplied; when it
    returns [false] nothing has been deleted. *)
Theorem handleDelete_succeeds_iff (s : State) (w : World) (id password : string) :
  let w' := snd (fst (handleDelete no_faults s w id password)) in
  let ok := snd (handleDelete no_faults s w id password) in
  (ok = true <->
   exists d : MangaData, firestore w !! id = Some d /\ Firebase.password d = password)
  /\ (ok = true -> firestore w' !! id = None)
  /\ (ok = false -> w' = w).
Proof.
  intros w' ok. subst w' ok.
  unfold handleDelete, getDoc, deleteObject, deleteDoc.
  cbn [no_faults getDoc_fault deleteObject_fault deleteDoc_fault].
  destruct (firestore w !! id) as [d|] eqn:Hd.
  - destruct (decide (Firebase.password d = password)) as [Hpw|Hpw];
      cbn [fst snd firestore].
    + repeat split; try discriminate; eauto.
      intros _. rewrite lookup_delete_eq. reflexivity.
    + repeat split; try discriminate.
      intros (d' & [= <-] & Hpw'). contradiction.
  - cbn [fst snd]. repeat split; try discriminate.
    intros (d' & Hd' & _). discriminate.
Qed.

(** X13: an upload followed by the deletion of the new document with the
    password given in the form puts the collection and the bucket back as
    they were, provided the id and the image path are new. *)
Theorem upload_then_delete (e : Upload.Env) (s : State) (w : World)
    (formData : Upload.FormData) (uid : string) :
  Upload.signedIn (Upload.userId e) = Some uid ->
  firestore w !! Upload.newId e = None ->
  Upload.storagePathOf e formData ∉ bucket w ->
  let '(s1, w1) := Upload.handleUpload e Upload.no_faults s w formData in
  snd (fst (handleDelete no_faults s1 w1 (Upload.newId e)
              (Upload.password formData))) = w
  /\ snd (handleDelete no_faults s1 w1 (Upload.newId e)
            (Upload.password formData)) = true.
Proof.
  intros Huid Hfresh Hpath.
  pose proof (handleUpload_runs e Upload.no_faults s w formData uid Huid) as Hrun.
  cbn zeta in Hrun. cbn [Upload.no_faults Upload.uploadBytes_fault
    Upload.getDownloadURL_fault Upload.addDoc_fault] in Hrun.
  destruct (Upload.handleUpload e Upload.no_faults s w formData) as [s1 w1].
  cbn [snd] in Hrun. subst w1.
  set (d := Upload.newDocument e uid formData _).
  set (w1 := mkWorld _ _).
  assert (Hd : firestore w1 !! Upload.newId e = Some d) by apply lookup_insert_eq.
  pose proof (handleDelete_runs no_faults s1 w1 (Upload.newId e)
                (Upload.password formData) d Hd eq_refl) as Hdel.
  cbn [no_faults getDoc_fault deleteObject_fault deleteDoc_fault] in Hdel.
  injection Hdel as Hw Hok. split; [|exact Hok].
  rewrite Hw. unfold w1. cbn [firestore bucket storagePath d Upload.newDocument].
  destruct w as [db b]. cbn [firestore bucket] in *. f_equal.
  - rewrite delete_insert_eq. apply delete_id. exact Hfresh.
  - set_solver.
Qed.

Lemma upload_then_delete_witness :
  Upload.signedIn (Upload.userId MoreSamples.envD) = Some "u9"
  /\ firestore Samples.worldAB !! Upload.newId MoreSamples.envD = None
  /\ (Upload.storagePathOf MoreSamples.envD MoreSamples.formD
       ∉ bucket Samples.worldAB)
  /\ snd (handleDelete no_faults
            (fst (Upload.handleUpload MoreSamples.envD Upload.no_faults
                    Samples.staleState Samples.worldAB MoreSamples.formD))
            (snd (Upload.handleUpload MoreSamples.envD Upload.no_faults
                    Samples.staleState Samples.worldAB MoreSamples.formD))
            "idD" "2468") = true.
Proof.
  assert (Hpath : Upload.storagePathOf MoreSamples.envD MoreSamples.formD
                  ∉ bucket Samples.worldAB).
  { apply (bool_decide_unpack _). vm_compute. exact I. }
  split; [reflexivity|]. split; [reflexivity|]. split; [exact Hpath|].
  pose proof (upload_then_delete MoreSamples.envD Samples.staleState
                Samples.worldAB MoreSamples.formD "u9" eq_refl eq_refl Hpath)
    as H.
  destruct (Upload.handleUpload MoreSamples.envD Upload.no_faults
              Samples.staleState Samples.worldAB MoreSamples.formD) as [s1 w1].
  exact (proj2 H).
Defined.

End UploadAndDelete.

(** *** The upload form and the delete dialog *)

Section Forms.
Import FormSpec.

Lemma digits_0_4_spec (val : string) :
  UploadForm.digits_0_4 val = true
  <-> forallb UploadForm.isDigit (String.list_ascii_of_string val) = true
      /\ (String.length val <= 4)%nat.
Proof.
  unfold UploadForm.digits_0_4.
  rewrite andb_true_iff, Nat.leb_le. reflexivity.
Qed.

Lemma step_well_formed (createObjectURL : Upload.File -> string)
    (st : UploadForm.FormState) (ev : UploadForm.Event) :
  well_formed st -> well_formed (UploadForm.step createObjectURL st ev).
Proof.
  intros [Hpw Hfile]. destruct ev as [val|val|val|[file|]]; simpl.
  - split; assumption.
  - split; assumption.
  - unfold UploadForm.handlePasswordChange.
    destruct (UploadForm.digits_0_4 val) eqn:Hval; split; assumption.
  - unfold UploadForm.handleImageChange.
    destruct (String.prefix "image/" (Upload.type file)) eqn:Himg; split; simpl;
      try assumption; try discriminate.
    intros f [= <-]. exact Himg.
  - split; [exact Hpw|discriminate].
Qed.

Lemma form_reachable_well_formed (createObjectURL : Upload.File -> string)
    (events : list UploadForm.Event) :
  well_formed (foldl (UploadForm.step createObjectURL) UploadForm.initial events).
Proof.
  assert (Hgen : forall st : UploadForm.FormState,
            well_formed st ->
            well_formed (foldl (UploadForm.step createObjectURL) st events)).
  { induction events as [|ev events IH]; intros st Hst; simpl; [exact Hst|].
    apply IH, step_well_formed, Hst. }
  apply Hgen. split; [reflexivity|discriminate].
Qed.

(** X14: whatever is typed into the upload form and whatever files are
    picked, the password the form holds is at most four digits and the
    file it holds, if any, has an image type. *)
Theorem form_well_formed (createObjectURL : Upload.File -> string)
    (events : list UploadForm.Event) :
  let st := foldl (UploadForm.step createObjectURL) UploadForm.initial events in
  forallb UploadForm.isDigit
    (String.list_ascii_of_string (UploadForm.password st)) = true
  /\ (String.length (UploadForm.password st) <= 4)%nat
  /\ forall f : Upload.File,
       UploadForm.imageFile st = Some f ->
       String.prefix "image/" (Upload.type f) = true.
Proof.
  intros st.
  destruct (form_reachable_well_formed createObjectURL events) as [Hpw Hfile].
  apply digits_0_4_spec in Hpw. destruct Hpw as [Hd Hl].
  split; [exact Hd|]. split; [exact Hl|exact Hfile].
Qed.

(** The sample session: rejected keystrokes leave the password as it was. *)
Example fillForm_result :
  foldl (UploadForm.step MoreSamples.objectURL) UploadForm.initial
        MoreSamples.fillForm
  = UploadForm.mkFormState "Delta" "dee" "2468" (Some MoreSamples.pagePng)
                           (Some "blob:page.png") ""
  /\ UploadForm.handleSubmit logUpload
       (foldl (UploadForm.step MoreSamples.objectURL) UploadForm.initial
              MoreSamples.fillForm) []
     = (UploadForm.initial, [MoreSamples.formD])
  /\ UploadForm.imageFile
       (UploadForm.handleImageChange MoreSamples.objectURL
          (Some MoreSamples.notesTxt)
          (foldl (UploadForm.step MoreSamples.objectURL) UploadForm.initial
                 MoreSamples.fillForm))
     = None.
Proof. repeat split. Qed.

(** X15: [handleSubmit] calls [onUpload] at most once, and only with names
    that are not empty, a password of exactly four digits and an image
    file, whatever was done to the form before; when it does not call it,
    it shows an error and keeps what the form holds. *)
Theorem handleSubmit_uploads_valid (createObjectURL : Upload.File -> string)
    (events : list UploadForm.Event) :
  let st := foldl (UploadForm.step createObjectURL) UploadForm.initial events in
  let st' := fst (UploadForm.handleSubmit logUpload st []) in
  let log := snd (UploadForm.handleSubmit logUpload st []) in
  (exists fd : Upload.FormData,
     log = [fd] /\ valid_upload fd /\ st' = UploadForm.initial
     /\ Upload.title fd = UploadForm.title st
     /\ Upload.author fd = UploadForm.author st
     /\ Upload.password fd = UploadForm.password st
     /\ Some (Upload.imageFile fd) = UploadForm.imageFile st)
  \/ (log = [] /\ UploadForm.error st' <> ""
      /\ UploadForm.title st' = UploadForm.title st
      /\ UploadForm.author st' = UploadForm.author st
      /\ UploadForm.password st' = UploadForm.password st
      /\ UploadForm.imageFile st' = UploadForm.imageFile st).
Proof.
  intros st st' log.
  destruct (form_reachable_well_formed createObjectURL events) as [Hpw Hfile].
  fold st in Hpw, Hfile. subst st' log. clearbody st.
  unfold UploadForm.handleSubmit.
  destruct st as [t a pw [file|] pv er];
    cbn [UploadForm.setError UploadForm.imageFile UploadForm.title
         UploadForm.author UploadForm.password UploadForm.error] in *.
  - destruct (decide (t = "" \/ a = "" \/ pw = "")) as [Hempty|Hfull].
    + right. cbn. repeat split. discriminate.
    + destruct (decide (String.length pw <> 4%nat)) as [Hlen|Hlen].
      * right. cbn. repeat split. discriminate.
      * left. eexists. cbn. split; [reflexivity|].
        apply digits_0_4_spec in Hpw. destruct Hpw as [Hdigits _].
        unfold valid_upload. cbn.
        repeat split; try (intros ->; apply Hfull; tauto); try assumption.
        -- destruct (decide (String.length pw = 4%nat)); [assumption|contradiction].
        -- apply Hfile. reflexivity.
  - right. cbn. repeat split. discriminate.
Qed.

Lemma modal_step_digits (st : DeleteModal.ModalState) (val : string) :
  UploadForm.digits_0_4 (DeleteModal.password st) = true ->
  UploadForm.digits_0_4
    (DeleteModal.password (DeleteModal.handlePasswordChange val st)) = true.
Proof.
  intros Hst. unfold DeleteModal.handlePasswordChange.
  destruct (UploadForm.digits_0_4 val) eqn:Hval; assumption.
Qed.

Lemma modal_reachable_digits (inputs : list string) :
  UploadForm.digits_0_4
    (DeleteModal.password
       (foldl (fun st val => DeleteModal.handlePasswordChange val st)
              DeleteModal.initial inputs)) = true.
Proof.
  assert (Hgen : forall st : DeleteModal.ModalState,
            UploadForm.digits_0_4 (DeleteModal.password st) = true ->
            UploadForm.digits_0_4
              (DeleteModal.password
                 (foldl (fun st val => DeleteModal.handlePasswordChange val st)
                        st inputs)) = true).
  { induction inputs as [|val inputs IH]; intros st Hst; simpl; [exact Hst|].
    apply IH, modal_step_digits, Hst. }
  apply Hgen. reflexivity.
Qed.

(** X16: the delete dialog, wired to [handleDelete]: unless its password
    has four characters it deletes nothing, stays open and shows an error;
    it closes only when the document existed with that password and is
    now gone from the collection; when it stays open after a try, it shows
    the failure text and is ready for another try.  The password it holds
    is always at most four digits. *)
Theorem modal_delete (f : Firebase.Faults) (mangaId : string)
    (inputs : list string) (s : App.State) (w : Firebase.World) :
  let st := foldl (fun st val => DeleteModal.handlePasswordChange val st)
                  DeleteModal.initial inputs in
  let r := DeleteModal.handleDeleteClick (appDelete f) mangaId st (s, w) in
  let st' := fst (fst r) in
  let w' := snd (snd (fst r)) in
  let closed := snd r in
  UploadForm.digits_0_4 (DeleteModal.password st) = true
  /\ (String.length (DeleteModal.password st) <> 4%nat ->
      snd (fst r) = (s, w) /\ closed = false /\ DeleteModal.error st' <> "")
  /\ (closed = true ->
      String.length (DeleteModal.password st) = 4%nat
      /\ Firebase.firestore w' !! mangaId = None
      /\ exists d : Firebase.MangaData,
           Firebase.firestore w !! mangaId = Some d
           /\ Firebase.password d = DeleteModal.password st)
  /\ (closed = false ->
      String.length (DeleteModal.password st) = 4%nat ->
      DeleteModal.error st' = "パスワードが違うか、削除に失敗しました。"
      /\ DeleteModal.isDeleting st' = false
      /\ DeleteModal.password st' = DeleteModal.password st).
Proof.
  intros st r st' w' closed.
  split; [apply modal_reachable_digits|].
  subst st' w' closed r. clearbody st.
  unfold DeleteModal.handleDeleteClick, appDelete. cbn [fst snd].
  destruct (decide (String.length (DeleteModal.password st) <> 4%nat)) as [Hlen|Hlen].
  - cbn [fst snd DeleteModal.error DeleteModal.isDeleting].
    repeat split; try discriminate; intros; contradiction.
  - pose proof (handleDelete_true f s w mangaId (DeleteModal.password st)) as Htrue.
    destruct (App.handleDelete f s w mangaId (DeleteModal.password st))
      as [[s1 w1] ok].
    cbn [fst snd] in Htrue.
    destruct ok; cbn [fst snd DeleteModal.error DeleteModal.isDeleting].
    + split; [intros; contradiction|]. split; [|discriminate].
      intros _. destruct (Htrue eq_refl) as (d & Hd & Hpw & ->).
      split; [destruct (decide (String.length (DeleteModal.password st) = 4%nat));
              [assumption|contradiction]|].
      split; [cbn [Firebase.firestore]; rewrite lookup_delete_eq; reflexivity|].
      exists d. split; assumption.
    + split; [intros; contradiction|]. split; [discriminate|].
      intros _ _. repeat split.
Qed.

End Forms.

(** *** The ranking *)

Section Ranking.
Import Firebase VoteView RankingView.

(** [Array_sort] orders by any relation the comparison decides. *)
Lemma insert_by_HdRel_gen {A : Type} (compareFn : A -> A -> Z) (R : A -> A -> Prop)
    (x z : A) (l : list A) :
  R z x -> HdRel R z l -> HdRel R z (insert_by compareFn x l).
Proof.
  intros Hzx Hz. destruct l as [|y l]; simpl; [constructor; assumption|].
  destruct (decide (compareFn x y <= 0)%Z); constructor; [assumption|].
  inversion Hz; assumption.
Qed.

Lemma Array_sort_Sorted_gen {A : Type} (compareFn : A -> A -> Z) (R : A -> A -> Prop) :
  (forall x y : A, (compareFn x y <= 0)%Z -> R x y) ->
  (forall x y : A, (0 < compareFn x y)%Z -> R y x) ->
  forall l : list A, Sorted R (Array_sort compareFn l).
Proof.
  intros Hle Hgt.
  assert (Hins : forall (x : A) (l : list A),
            Sorted R l -> Sorted R (insert_by compareFn x l)).
  { intros x l Hs. induction Hs as [|y l Hs IH Hhd]; simpl.
    - repeat constructor.
    - destruct (decide (compareFn x y <= 0)%Z) as [Hxy|Hxy].
      + constructor; [constructor; assumption|]. constructor. apply Hle, Hxy.
      + constructor; [exact IH|].
        apply insert_by_HdRel_gen; [|exact Hhd]. apply Hgt. lia. }
  induction l as [|x l IH]; simpl; [constructor|]. apply Hins, IH.
Qed.

(** Elements the comparison tells apart never swap with their like. *)
Lemma insert_by_filter {A : Type} (compareFn : A -> A -> Z) (P : A -> Prop)
    `{!forall x, Decision (P x)} (x : A) (l : list A) :
  (forall a b : A, P a -> P b -> (compareFn a b <= 0)%Z) ->
  filter P (insert_by compareFn x l) = filter P (x :: l).
Proof.
  intros Hsame. induction l as [|y l IH]; simpl; [reflexivity|].
  destruct (decide (compareFn x y <= 0)%Z) as [Hxy|Hxy]; [reflexivity|].
  rewrite (filter_cons P y (insert_by _ _ _)), IH.
  rewrite (filter_cons P x (y :: l)), (filter_cons P x l), (filter_cons P y l).
  destruct (decide (P x)) as [Hx|Hx], (decide (P y)) as [Hy|Hy]; try reflexivity.
  exfalso. apply Hxy, Hsame; assumption.
Qed.

Lemma Array_sort_filter {A : Type} (compareFn : A -> A -> Z) (P : A -> Prop)
    `{!forall x, Decision (P x)} (l : list A) :
  (forall a b : A, P a -> P b -> (compareFn a b <= 0)%Z) ->
  filter P (Array_sort compareFn l) = filter P l.
Proof.
  intros Hsame. induction l as [|x l IH]; simpl; [reflexivity|].
  rewrite insert_by_filter by exact Hsame.
  rewrite !filter_cons, IH. reflexivity.
Qed.

(** X17: the ranking shows every entry of the list exactly once, in
    descending order of rating, so that no entry is rated above the first
    one. *)
Theorem ranking_order (mangaList : list Manga) :
  sortedList mangaList ≡ₚ mangaList
  /\ Sorted elo_ge (sortedList mangaList)
  /\ forall (top : Manga) (rest : list Manga),
       sortedList mangaList = top :: rest ->
       forall x : Manga, x ∈ mangaList -> (elo (data x) <= elo (data top))%Z.
Proof.
  assert (Hperm : sortedList mangaList ≡ₚ mangaList)
    by apply Array_sort_Permutation.
  assert (Hsorted : Sorted elo_ge (sortedList mangaList)).
  { apply Array_sort_Sorted_gen; unfold byEloDesc, elo_ge; intros; lia. }
  split; [exact Hperm|]. split; [exact Hsorted|].
  intros top rest Heq x Hx.
  rewrite <- Hperm, Heq in Hx. rewrite Heq in Hsorted.
  apply Sorted_StronglySorted in Hsorted;
    [|intros a b c; unfold elo_ge; lia].
  apply StronglySorted_inv in Hsorted. destruct Hsorted as [_ Hall].
  apply elem_of_cons in Hx. destruct Hx as [->|Hx]; [lia|].
  rewrite Forall_forall in Hall. exact (Hall x Hx).
Qed.

(** X18: entries with the same rating appear in the ranking, and in the
    ascending list of the vote view, in the order they have in the list. *)
Theorem ranking_stable (mangaList : list Manga) (rating : Z) :
  filter (fun x => elo (data x) = rating) (sortedList mangaList)
  = filter (fun x => elo (data x) = rating) mangaList
  /\ filter (fun x => elo (data x) = rating) (Array_sort byElo mangaList)
     = filter (fun x => elo (data x) = rating) mangaList.
Proof.
  split; apply Array_sort_filter; unfold byEloDesc, byElo; intros a b Ha Hb; lia.
Qed.

(** No decimal numeral starts with a character that is not a digit. *)
Lemma pretty_N_go_head (c : Ascii.ascii) (t : string) :
  (forall d : N, pretty_N_char d <> c) ->
  forall (x : N) (s : string), s <> String c t -> pretty_N_go x s <> String c t.
Proof.
  intros Hc x. induction (N.lt_wf_0 x) as [x _ IH]. intros s Hs.
  destruct (decide (x = 0%N)) as [->|Hx]; [rewrite pretty_N_go_0; exact Hs|].
  rewrite pretty_N_go_step by lia.
  apply IH; [apply N.div_lt; lia|].
  intros [= Hhead _]. exact (Hc _ Hhead).
Qed.

Lemma pretty_nat_head (c : Ascii.ascii) (t : string) (n : nat) :
  (forall d : N, pretty_N_char d <> c) -> pretty (S n) <> String c t.
Proof.
  intros Hc. unfold pretty, pretty_nat, pretty, pretty_N.
  rewrite decide_False by lia.
  apply pretty_N_go_head; [exact Hc|discriminate].
Qed.

Lemma medal_head_not_digit (d : N) : pretty_N_char d <> Ascii.ascii_of_nat 240.
Proof. unfold pretty_N_char. repeat case_match; discriminate. Qed.

(** X19: the first three ranks are shown as three different medals, every
    rank from the fourth on as the decimal numeral of [rank + 1], which is
    never a medal, and no two ranks are shown with the same label. *)
Theorem getRankEmoji_labels :
  (getRankEmoji 0 = "🥇" /\ getRankEmoji 1 = "🥈" /\ getRankEmoji 2 = "🥉")
  /\ ("🥇" <> "🥈" /\ "🥇" <> "🥉" /\ "🥈" <> "🥉")
  /\ (forall rank : nat, (3 <= rank)%nat ->
      getRankEmoji rank = pretty (rank + 1)%nat
      /\ getRankEmoji rank <> "🥇" /\ getRankEmoji rank <> "🥈"
      /\ getRankEmoji rank <> "🥉")
  /\ (forall rank1 rank2 : nat,
      getRankEmoji rank1 = getRankEmoji rank2 -> rank1 = rank2).
Proof.
  assert (Hnum : forall (n : nat) (t : string),
            pretty (S n) <> String (Ascii.ascii_of_nat 240) t).
  { intros n t. apply pretty_nat_head, medal_head_not_digit. }
  split; [repeat split|]. split; [repeat split; discriminate|]. split.
  - intros rank Hrank.
    destruct rank as [|[|[|r]]]; try lia.
    cbn [getRankEmoji]. split; [reflexivity|].
    rewrite Nat.add_1_r. repeat split; apply Hnum.
  - intros rank1 rank2.
    destruct rank1 as [|[|[|r1]]], rank2 as [|[|[|r2]]];
      cbn [getRankEmoji]; intros H;
      try reflexivity; try discriminate H;
      try (rewrite Nat.add_1_r in H; exfalso; eapply Hnum;
           first [exact H|symmetry; exact H]).
    apply pretty_nat_inj in H. lia.
Qed.

Example getRankEmoji_fourth : getRankEmoji 3 = "4" /\ getRankEmoji 11 = "12".
Proof. split; reflexivity. Qed.

End Ranking.

(** *** From the snapshot to the vote *)

Section VoteFlowProperties.
Import Elo Firebase App VoteView VoteFlow.

(** X20: the list [onSnapshot] builds from the documents of the collection
    shows every document once, under its id and with its stored fields,
    whatever their order, and ends the loading state. *)
Theorem onSnapshot_current (docs : list (string * MangaData)) (db : Collection)
    (s : State) :
  docs ≡ₚ map_to_list db ->
  current_snapshot db (mangaList (Upload.onSnapshot docs s))
  /\ length (mangaList (Upload.onSnapshot docs s)) = size db
  /\ (forall (i : string) (d : MangaData),
        db !! i = Some d -> mkManga i d ∈ mangaList (Upload.onSnapshot docs s))
  /\ isLoading (Upload.onSnapshot docs s) = false.
Proof.
  intros Hperm. cbn [Upload.onSnapshot mangaList isLoading].
  split; [split|split; [|split]].
  - rewrite <- list_fmap_compose.
    change (id ∘ (fun doc : string * MangaData => mkManga (fst doc) (snd doc)))
      with (@fst string MangaData).
    rewrite Hperm. apply NoDup_fst_map_to_list.
  - intros x Hx. apply list_elem_of_fmap in Hx.
    destruct Hx as ([i d] & -> & Hdoc). cbn.
    rewrite Hperm in Hdoc. apply elem_of_map_to_list in Hdoc. exact Hdoc.
  - rewrite length_map, Hperm. apply length_map_to_list.
  - intros i d Hd. apply list_elem_of_fmap. exists (i, d).
    split; [reflexivity|]. rewrite Hperm. apply elem_of_map_to_list. exact Hd.
  - reflexivity.
Qed.

Lemma onSnapshot_current_witness :
  map_to_list Samples.collectionAB ≡ₚ map_to_list Samples.collectionAB
  /\ length (mangaList (Upload.onSnapshot (map_to_list Samples.collectionAB)
                          Samples.staleState)) = 2%nat.
Proof.
  assert (Hperm : map_to_list Samples.collectionAB
                  ≡ₚ map_to_list Samples.collectionAB) by reflexivity.
  split; [exact Hperm|].
  destruct (onSnapshot_current _ Samples.collectionAB Samples.staleState Hperm)
    as (_ & Hlen & _).
  rewrite Hlen. reflexivity.
Defined.



End VoteFlowProperties.

(** ** Part IV: the arithmetic in doubles *)

Section DoublePrecision.
Import Elo Firebase VoteView Double.
Local Open Scope R_scope.

Lemma Rabs_bounds (a b : R) : Rabs a <= b -> - b <= a <= b.
Proof. unfold Rabs. destruct (Rcase_abs a); lra. Qed.

(** Exact arithmetic is one rounding, and the exact power one [Math.pow]. *)
Lemma Rounding_exact : Rounding exact.
Proof.
  split; unfold exact.
  - intros x y H. exact H.
  - reflexivity.
  - intros x _. replace (x - x) with 0 by lra. rewrite Rabs_R0.
    pose proof (Rabs_pos x) as Hx.
    assert (H53 : 0 < / 2 ^ 53) by (apply Rinv_0_lt_compat, pow_lt; lra).
    assert (H1075 : 0 < / 2 ^ 1075) by (apply Rinv_0_lt_compat, pow_lt; lra).
    unfold Rdiv. nra.
Qed.

Lemma PowSpec_exactPow : PowSpec exactPow.
Proof.
  split; unfold exactPow.
  - f_equal. apply Math_pow_0.
  - intros x p [= <-]. left. apply Math_pow_pos.
Qed.

Lemma exact_updateElo (oldRating expected score : R) :
  updateElo64 exact oldRating expected score = updateElo oldRating expected score.
Proof. reflexivity. Qed.

Lemma exact_getNextMatch (fuel : nat) (rnd : Random) (mangaList : list Manga) :
  getNextMatch64 exact fuel rnd mangaList = getNextMatch fuel rnd mangaList.
Proof.
  assert (Hloop : forall (fuel : nat) (k : nat) (n a b : Z),
            redraw64 exact fuel rnd k n a b = redraw fuel rnd k n a b).
  { clear fuel. induction fuel as [|fuel IH]; intros k n a b; simpl;
      destruct (decide (a = b)); try reflexivity. apply IH. }
  unfold getNextMatch64, getNextMatch, uniformBranch64, neighbourBranch64.
  destruct (decide (length mangaList < 2)%nat); [reflexivity|].
  destruct (Rlt_dec (rnd 0%nat) (1 / 2)); [|reflexivity].
  rewrite Hloop. reflexivity.
Qed.

(** Integers and their 32nds below [2^53] are doubles. *)
Lemma is_double_Z (k : Z) : (Z.abs k < 2 ^ 53)%Z -> is_double (IZR k).
Proof.
  intros Hk. exists k, 0%Z. split; [exact Hk|]. split; [lia|]. simpl. lra.
Qed.

Lemma is_double_32nd (k : Z) : (Z.abs k < 2 ^ 53)%Z -> is_double (IZR k / 32).
Proof.
  intros Hk. exists k, (-5)%Z. split; [exact Hk|]. split; [lia|]. simpl. lra.
Qed.

Lemma fl_between (fl : R -> R) (a b x : R) :
  Rounding fl -> is_double a -> is_double b -> a <= x <= b -> a <= fl x <= b.
Proof.
  intros Hfl Ha Hb [Hax Hxb]. split.
  - rewrite <- (fl_exact fl Hfl a Ha). apply (fl_monotone fl Hfl), Hax.
  - rewrite <- (fl_exact fl Hfl b Hb). apply (fl_monotone fl Hfl), Hxb.
Qed.

(** Between two integer bounds on [32 * (score - expected)], the rating
    moves between those bounds. *)
Lemma updateElo64_between (fl : R -> R) (oldRating a b : Z) (expected score : R) :
  Rounding fl ->
  (Z.abs oldRating <= 2 ^ 50)%Z -> (Z.abs a <= 2 ^ 51)%Z -> (Z.abs b <= 2 ^ 51)%Z ->
  IZR a <= 32 * (score - expected) <= IZR b ->
  (oldRating + a <= updateElo64 fl (IZR oldRating) expected score <= oldRating + b)%Z.
Proof.
  intros Hfl Hold Ha Hb Hab. unfold updateElo64, K_FACTOR, Math_floor.
  assert (H1 : IZR a / 32 <= fl (score - expected) <= IZR b / 32).
  { apply fl_between; [exact Hfl|apply is_double_32nd; lia..|lra]. }
  assert (H2 : IZR a <= fl (32 * fl (score - expected)) <= IZR b).
  { apply fl_between; [exact Hfl|apply is_double_Z; lia..|lra]. }
  assert (H3 : IZR (oldRating + a)
               <= fl (IZR oldRating + fl (32 * fl (score - expected)))
               <= IZR (oldRating + b)).
  { apply fl_between; [exact Hfl|apply is_double_Z; lia..|].
    rewrite !plus_IZR. lra. }
  destruct H3 as [Hlo Hhi]. split.
  - apply Zfloor_lub. exact Hlo.
  - apply le_IZR.
    destruct (Zfloor_bound (fl (IZR oldRating + fl (32 * fl (score - expected))))).
    lra.
Qed.





Lemma calculateExpected64_unit (fl : R -> R) (pow : R -> R -> Number) (ra rb : R) :
  Rounding fl -> PowSpec pow -> 0 <= calculateExpected64 fl pow ra rb <= 1.
Proof.
  intros Hfl Hpow. unfold calculateExpected64.
  destruct (pow 10 (fl (fl (rb - ra) / 400))) as [p|] eqn:Hp; [|lra].
  pose proof (pow_nonneg pow Hpow _ _ Hp) as Hp0.
  assert (H0 : is_double 0) by (apply (is_double_Z 0); lia).
  assert (H1 : is_double 1) by (apply (is_double_Z 1); lia).
  assert (Hs : 1 <= fl (1 + p)).
  { rewrite <- (fl_exact fl Hfl 1 H1) at 1. apply (fl_monotone fl Hfl). lra. }
  apply fl_between; [exact Hfl|exact H0|exact H1|].
  split.
  - left. apply Rdiv_lt_0_compat; lra.
  - apply Rmult_le_reg_r with (fl (1 + p)); [lra|].
    unfold Rdiv. rewrite Rmult_assoc, Rinv_l by lra. lra.
Qed.

(** X2: in doubles the expected score lies between 0 and 1, both ends
    included (it reaches them when the ratings are far apart), whatever
    [Math.pow] and the rounding do; for equal ratings it is exactly one
    half. *)
Theorem calculateExpected64_range (fl : R -> R) (pow : R -> R -> Number)
    (ra rb : R) :
  Rounding fl -> PowSpec pow ->
  0 <= calculateExpected64 fl pow ra rb <= 1
  /\ calculateExpected64 fl pow ra ra = 1 / 2.
Proof.
  intros Hfl Hpow. split; [apply calculateExpected64_unit; assumption|].
  unfold calculateExpected64.
  assert (H0 : is_double 0) by (apply (is_double_Z 0); lia).
  replace (ra - ra) with 0 by lra.
  rewrite (fl_exact fl Hfl 0 H0).
  replace (0 / 400) with 0 by lra.
  rewrite (fl_exact fl Hfl 0 H0), (pow_zero pow Hpow).
  replace (1 + 1) with (IZR 2) by lra.
  rewrite (fl_exact fl Hfl (IZR 2)) by (apply is_double_Z; lia).
  replace (1 / IZR 2) with (IZR 16 / 32) by lra.
  rewrite (fl_exact fl Hfl (IZR 16 / 32)) by (apply is_double_32nd; lia).
  lra.
Qed.

Lemma calculateExpected64_range_witness :
  Rounding exact /\ PowSpec exactPow
  /\ 0 <= calculateExpected64 exact exactPow 1000 8000 <= 1
  /\ calculateExpected64 exact exactPow 1000 1000 = 1 / 2.
Proof.
  split; [exact Rounding_exact|]. split; [exact PowSpec_exactPow|].
  exact (calculateExpected64_range exact exactPow 1000 8000
           Rounding_exact PowSpec_exactPow).
Defined.

(** X3: in doubles, for integer ratings up to [2^50] in size, a vote never
    lowers the winner's rating and raises it by at most 32; it never
    raises the loser's rating and lowers it by at most 32. *)
Theorem vote64_rating_moves (fl : R -> R) (pow : R -> R -> Number) (w l : Z) :
  Rounding fl -> PowSpec pow ->
  (Z.abs w <= 2 ^ 50)%Z -> (Z.abs l <= 2 ^ 50)%Z ->
  let newWinner :=
    updateElo64 fl (IZR w) (calculateExpected64 fl pow (IZR w) (IZR l)) 1 in
  let newLoser :=
    updateElo64 fl (IZR l) (calculateExpected64 fl pow (IZR l) (IZR w)) 0 in
  (w <= newWinner <= w + 32)%Z /\ (l - 32 <= newLoser <= l)%Z.
Proof.
  intros Hfl Hpow Hw Hl newWinner newLoser.
  pose proof (calculateExpected64_unit fl pow (IZR w) (IZR l) Hfl Hpow) as Hew.
  pose proof (calculateExpected64_unit fl pow (IZR l) (IZR w) Hfl Hpow) as Hel.
  assert (H1 : (w + 0 <= newWinner <= w + 32)%Z).
  { apply updateElo64_between; [exact Hfl|lia|lia|lia|lra]. }
  assert (H2 : (l + -32 <= newLoser <= l + 0)%Z).
  { apply updateElo64_between; [exact Hfl|lia|lia|lia|lra]. }
  lia.
Qed.

Lemma vote64_rating_moves_witness :
  Rounding exact /\ PowSpec exactPow
  /\ (Z.abs 1000 <= 2 ^ 50)%Z /\ (Z.abs 8000 <= 2 ^ 50)%Z
  /\ (1000 <= updateElo64 exact (IZR 1000)
                (calculateExpected64 exact exactPow (IZR 1000) (IZR 8000)) 1
       <= 1000 + 32)%Z.
Proof.
  assert (Hw : (Z.abs 1000 <= 2 ^ 50)%Z) by lia.
  assert (Hl : (Z.abs 8000 <= 2 ^ 50)%Z) by lia.
  split; [exact Rounding_exact|]. split; [exact PowSpec_exactPow|].
  split; [exact Hw|]. split; [exact Hl|].
  exact (proj1 (vote64_rating_moves exact exactPow 1000 8000
                  Rounding_exact PowSpec_exactPow Hw Hl)).
Defined.

(** The product of a draw and a list length, and its rounding. *)
Lemma draw_product (fl : R -> R) (r : R) (n : Z) :
  Rounding fl -> 0 <= r <= 1 - / 2 ^ 53 -> (0 < n <= 2 ^ 32)%Z ->
  0 <= r * IZR n <= IZR n - IZR n / 2 ^ 53
  /\ 0 <= fl (r * IZR n)
  /\ - (r * IZR n / 2 ^ 53) - / 2 ^ 1075 <= fl (r * IZR n) - r * IZR n
     <= r * IZR n / 2 ^ 53 + / 2 ^ 1075.
Proof.
  intros Hfl [Hr0 Hr1] [Hn0 Hn1].
  assert (Hm0 : 1 <= IZR n) by (apply IZR_le; lia).
  assert (Hm1 : IZR n <= 4294967296) by (apply IZR_le; lia).
  assert (Hx0 : 0 <= r * IZR n) by (apply Rmult_le_pos; lra).
  assert (Hx1 : r * IZR n <= (1 - / 2 ^ 53) * IZR n)
    by (apply Rmult_le_compat_r; lra).
  split; [lra|]. split.
  - assert (H0 : is_double 0) by (apply (is_double_Z 0); lia).
    rewrite <- (fl_exact fl Hfl 0 H0). apply (fl_monotone fl Hfl), Hx0.
  - pose proof (fl_error fl Hfl (r * IZR n)) as Herr.
    rewrite (Rabs_pos_eq (r * IZR n)) in Herr by exact Hx0.
    assert (Hrange : r * IZR n <= 2 ^ 1023).
    { apply Rle_trans with (2 ^ 32); [lra|]. apply Rle_pow; [lra|lia]. }
    apply Rabs_bounds in Herr; [|exact Hrange]. lra.
Qed.

Lemma half_subnormal_small : 0 < / 2 ^ 1075 < / 2 ^ 110.
Proof.
  split; [apply Rinv_0_lt_compat, pow_lt; lra|].
  apply Rinv_lt_contravar.
  - apply Rmult_lt_0_compat; apply pow_lt; lra.
  - apply Rlt_pow; [lra|lia].
Qed.

Lemma randomIndex64_range (fl : R -> R) (rnd : Random) (k : nat) (n : Z) :
  Rounding fl -> 0 <= rnd k <= 1 - / 2 ^ 53 -> (0 < n <= 2 ^ 32)%Z ->
  (0 <= randomIndex64 fl rnd k n < n)%Z.
Proof.
  intros Hfl Hr Hn. unfold randomIndex64, Math_floor.
  destruct (draw_product fl (rnd k) n Hfl Hr Hn) as (Hx & Hfl0 & Herr).
  destruct half_subnormal_small as [Heta0 Heta].
  assert (Hm0 : 1 <= IZR n) by (apply IZR_le; lia).
  set (x := rnd k * IZR n) in *.
  destruct (Zfloor_bound (fl x)) as [Hf1 Hf2].
  split.
  - apply Zfloor_lub. exact Hfl0.
  - apply lt_IZR. lra.
Qed.

(** The draws that give index [j] are those whose product with [n] is in
    [j, j + 1), up to a relative [2^-52] at both ends. *)
Lemma randomIndex64_interval (fl : R -> R) (rnd : Random) (k : nat) (n j : Z) :
  Rounding fl -> 0 <= rnd k <= 1 - / 2 ^ 53 -> (0 < n <= 2 ^ 32)%Z -> (0 <= j)%Z ->
  (IZR j * (1 + / 2 ^ 52) <= rnd k * IZR n <= (IZR j + 1) * (1 - / 2 ^ 52) ->
   randomIndex64 fl rnd k n = j)
  /\ (randomIndex64 fl rnd k n = j ->
      IZR j * (1 - / 2 ^ 52) <= rnd k * IZR n <= (IZR j + 1) * (1 + / 2 ^ 52)).
Proof.
  intros Hfl Hr Hn Hj. unfold randomIndex64, Math_floor.
  destruct (draw_product fl (rnd k) n Hfl Hr Hn) as (Hx & Hfl0 & Herr).
  destruct half_subnormal_small as [Heta0 Heta].
  set (x := rnd k * IZR n) in *.
  assert (HJ : IZR j = 0 \/ 1 <= IZR j).
  { destruct (decide (j = 0%Z)) as [->|Hne]; [left; reflexivity|].
    right. apply IZR_le. lia. }
  split.
  - intros Hin. apply Zfloor_eq. destruct HJ as [H0|H1]; lra.
  - intros <-. destruct (Zfloor_bound (fl x)) as [Hf1 Hf2].
    assert (HF : 0 <= IZR (Zfloor (fl x))) by (apply IZR_le, Zfloor_lub; exact Hfl0).
    assert (HJ' : IZR (Zfloor (fl x)) = 0 \/ 1 <= IZR (Zfloor (fl x))).
    { destruct (decide (Zfloor (fl x) = 0%Z)) as [->|Hne]; [left; reflexivity|].
      right. apply IZR_le. apply le_IZR in HF. lia. }
    destruct HJ' as [H0|H1]; lra.
Qed.

(** C8: on a list of [n >= 2] entries [getNextMatch] takes the neighbour
    branch exactly when the first draw is at least 0.5, half of the unit
    interval, and the uniform branch otherwise.  In the neighbour branch
    it pairs [sorted[i]] with [sorted[i + 1]], where [sorted] is the list
    in ascending order of rating and [i] is the floor of the double
    product of the next draw [r] and [n - 1]: [i] is in [0, n - 2], and
    every index [j] of that range is the one drawn for the [r] with
    [r * (n - 1)] in [j, j + 1), up to a relative [2^-52] at the ends of
    that interval, so that each index has the same share of the draws. *)
Theorem getNextMatch64_neighbours (fl : R -> R) (fuel : nat) (rnd : Random)
    (mangaList : list Manga) :
  Rounding fl ->
  (2 <= length mangaList)%nat ->
  (Z.of_nat (length mangaList) <= 2 ^ 32)%Z ->
  double_draws rnd ->
  let n := Z.of_nat (length mangaList) in
  let sorted := Array_sort byElo mangaList in
  let i := randomIndex64 fl rnd 1 (n - 1) in
  (rnd 0%nat < 1 / 2 ->
   getNextMatch64 fl fuel rnd mangaList = uniformBranch64 fl fuel rnd mangaList)
  /\ (1 / 2 <= rnd 0%nat ->
      sorted ≡ₚ mangaList
      /\ Sorted elo_le sorted
      /\ (0 <= i <= n - 2)%Z
      /\ exists x y : Manga,
           sorted !! Z.to_nat i = Some x
           /\ sorted !! S (Z.to_nat i) = Some y
           /\ elo_le x y
           /\ getNextMatch64 fl fuel rnd mangaList
              = Some (Some (mkMatch (Some x) (Some y))))
  /\ (forall j : Z, (0 <= j <= n - 2)%Z ->
      (IZR j * (1 + / 2 ^ 52) <= rnd 1%nat * IZR (n - 1)
         <= (IZR j + 1) * (1 - / 2 ^ 52) -> i = j)
      /\ (i = j ->
          IZR j * (1 - / 2 ^ 52) <= rnd 1%nat * IZR (n - 1)
            <= (IZR j + 1) * (1 + / 2 ^ 52))).
Proof.
  intros Hfl Hlen Hmax Hrnd n sorted i.
  assert (Hn1 : (0 < n - 1 <= 2 ^ 32)%Z) by (unfold n; lia).
  split; [|split].
  - intros Hlow. unfold getNextMatch64.
    rewrite decide_False by lia.
    destruct (Rlt_dec (rnd 0%nat) (1 / 2)); [reflexivity|contradiction].
  - intros Hhigh.
    assert (Hperm : sorted ≡ₚ mangaList) by apply Array_sort_Permutation.
    assert (Hsl : length sorted = length mangaList) by apply Array_sort_length.
    assert (Hsorted : Sorted elo_le sorted) by apply Array_sort_Sorted.
    pose proof (randomIndex64_range fl rnd 1 (n - 1) Hfl (Hrnd 1%nat) Hn1) as Hi.
    fold i in Hi.
    split; [exact Hperm|]. split; [exact Hsorted|]. split; [lia|].
    destruct (at_index_in_range sorted i) as (x & Hx & Hxl); [unfold n in Hi; lia|].
    destruct (at_index_in_range sorted (i + 1)) as (y & Hy & Hyl);
      [unfold n in Hi; lia|].
    replace (Z.to_nat (i + 1)) with (S (Z.to_nat i)) in Hyl by lia.
    exists x, y. split; [exact Hxl|]. split; [exact Hyl|].
    split; [exact (Sorted_neighbours sorted _ x y Hsorted Hxl Hyl)|].
    unfold getNextMatch64. rewrite decide_False by lia.
    destruct (Rlt_dec (rnd 0%nat) (1 / 2)); [lra|].
    unfold neighbourBranch64. fold sorted. rewrite Hsl. fold n. fold i.
    rewrite Hx, Hy. reflexivity.
  - intros j Hj.
    apply (randomIndex64_interval fl rnd 1 (n - 1) j Hfl (Hrnd 1%nat) Hn1). lia.
Qed.

Lemma double_draws_neighbourDraws : double_draws Samples.neighbourDraws.
Proof.
  assert (H : / 2 ^ 53 <= / 4).
  { apply Rinv_le_contravar; [lra|].
    apply Rle_trans with (2 ^ 2); [lra|]. apply Rle_pow; [lra|lia]. }
  intros [|k]; simpl; lra.
Qed.

(** The run of [getNextMatch] on three entries rated 1500, 1500 and 1380
    with draws 0.75 and 0.6: the order is [idC; idA; idB] (equal ratings
    keep their order) and the pair is [(idA, idB)]. *)
Lemma getNextMatch64_neighbours_witness :
  Rounding exact
  /\ (2 <= length Samples.listABC)%nat
  /\ (Z.of_nat (length Samples.listABC) <= 2 ^ 32)%Z
  /\ double_draws Samples.neighbourDraws
  /\ 1 / 2 <= Samples.neighbourDraws 0%nat
  /\ getNextMatch64 exact 0 Samples.neighbourDraws Samples.listABC
     = Some (Some (mkMatch (Some (mkManga "idA" Samples.mangaA))
                           (Some (mkManga "idB" Samples.mangaB)))).
Proof.
  assert (Hlen : (2 <= length Samples.listABC)%nat) by (simpl; lia).
  assert (Hmax : (Z.of_nat (length Samples.listABC) <= 2 ^ 32)%Z) by (simpl; lia).
  assert (Hhalf : 1 / 2 <= Samples.neighbourDraws 0%nat) by (simpl; lra).
  split; [exact Rounding_exact|]. split; [exact Hlen|]. split; [exact Hmax|].
  split; [exact double_draws_neighbourDraws|]. split; [exact Hhalf|].
  destruct (getNextMatch64_neighbours exact 0 Samples.neighbourDraws
              Samples.listABC Rounding_exact Hlen Hmax
              double_draws_neighbourDraws)
    as (_ & Hbranch & Hidx).
  destruct (Hbranch Hhalf) as (_ & _ & _ & x & y & Hx & Hy & _ & Hrun).
  rewrite Hrun.
  assert (Hi : randomIndex64 exact Samples.neighbourDraws 1
                 (Z.of_nat (length Samples.listABC) - 1) = 1%Z).
  { apply (Hidx 1%Z); [simpl; lia|].
    change (Z.of_nat (length Samples.listABC) - 1)%Z with 2%Z.
    assert (H52 : 0 < / 2 ^ 52 <= / 4).
    { split; [apply Rinv_0_lt_compat, pow_lt; lra|].
      apply Rinv_le_contravar; [lra|].
      apply Rle_trans with (2 ^ 2); [lra|]. apply Rle_pow; [lra|lia]. }
    simpl Samples.neighbourDraws. lra. }
  rewrite Hi in Hx, Hy.
  change (Array_sort byElo Samples.listABC)
    with [mkManga "idC" Samples.mangaC; mkManga "idA" Samples.mangaA;
          mkManga "idB" Samples.mangaB] in Hx, Hy.
  simpl in Hx, Hy. injection Hx as <-. injection Hy as <-. reflexivity.
Defined.

(** The draw 0.8333333333333333 on seven entries: the double product with
    6 is 5, so the index is 5, where the exact product is below 5. *)
Example index_double_five_sixths :
  Binary64.index_double Binary64.fiveSixths Binary64.six = Some 5%Z
  /\ Binary64.double_value Binary64.fiveSixths * 6 < 5
  /\ 5 * (1 - / 2 ^ 52) <= Binary64.double_value Binary64.fiveSixths * 6.
Proof.
  split; [vm_compute; reflexivity|].
  assert (Hv : Binary64.double_value Binary64.fiveSixths
               = IZR 7505999378950826 * / 2 ^ 53).
  { unfold Binary64.double_value.
    change (FloatOps.Prim2SF Binary64.fiveSixths)
      with (SpecFloat.S754_finite false 7505999378950826 (-53)).
    reflexivity. }
  rewrite Hv. lra.
Qed.

End DoublePrecision.
